(** * User Management API (src/main.py): validation, query construction and
    the five resource operations, embedded over an explicit storage
    collaborator.

    Python [str] values are lists of Unicode code points, Python [int]
    values are [Z], Python dicts with string keys are [gmap string _].
    Handlers are state-passing computations over the state of the storage
    collaborator that either return a value or raise a Python exception. *)

From Stdlib Require Import ZArith Lia Sorted.
From stdpp Require Import base option list strings pretty gmap fin_maps sorting infinite.

Local Open Scope Z_scope.

(** ** Python strings *)

(** A Python [str]: the sequence of its code points. *)
Abbreviation pystr := (list Z).

(** The code points of an ASCII literal of the source. *)
Definition codes (s : string) : pystr :=
  (λ a : Ascii.ascii, Z.of_N (Ascii.N_of_ascii a)) <$> String.list_ascii_of_string s.

(** [str(n)] for a Python [int]. *)
Definition str_int (n : Z) : pystr := codes (pretty n).

(** [s.lower()], as far as the ASCII range can see it: the code points whose
    lowercase form contains an ASCII character are [A]-[Z], U+0130 (which
    lowers to [i] followed by U+0307) and U+212A (KELVIN SIGN, which lowers
    to [k]). Every other code point lowers to non-ASCII code points and is
    kept as it is here, which no comparison with an ASCII text can tell. *)
Definition lower_char (c : Z) : pystr :=
  if (65 <=? c) && (c <=? 90) then [c + 32]
  else if c =? 304 then [105; 775]
  else if c =? 8490 then [107]
  else [c].

Definition lower (s : pystr) : pystr := s ≫= lower_char.

(** [s.startswith(p)]. *)
Fixpoint startswith (p s : pystr) : bool :=
  match p, s with
  | [], _ => true
  | _ :: _, [] => false
  | a :: p', b :: s' => (a =? b) && startswith p' s'
  end.

(** [needle in s] on strings: [needle] occurs as a contiguous run of [s]. *)
Fixpoint contains (needle s : pystr) : bool :=
  startswith needle s ||
  match s with
  | [] => false
  | _ :: s' => contains needle s'
  end.

(** [len(s)] as a Python int. *)
Definition len (s : pystr) : Z := Z.of_nat (length s).

(** ** The name pattern [^[a-zA-ZÀ-ÿ\s]+$] *)

(** [\s] on a [str] pattern: the code points for which CPython's
    [Py_UNICODE_ISSPACE] holds. *)
Definition re_space (c : Z) : bool :=
  ((9 <=? c) && (c <=? 13)) || ((28 <=? c) && (c <=? 32))
  || (c =? 133) || (c =? 160) || (c =? 5760)
  || ((8192 <=? c) && (c <=? 8202))
  || (c =? 8232) || (c =? 8233) || (c =? 8239) || (c =? 8287) || (c =? 12288).

(** The character class [[a-zA-ZÀ-ÿ\s]]: three ranges, the last one from
    U+00C0 to U+00FF, and the whitespace class. *)
Definition name_class (c : Z) : bool :=
  ((97 <=? c) && (c <=? 122))
  || ((65 <=? c) && (c <=? 90))
  || ((192 <=? c) && (c <=? 255))
  || re_space c.

(** [$] without [re.MULTILINE]: at the end of the text, or just before a
    newline that ends the text. *)
Definition at_dollar (rest : pystr) : bool :=
  match rest with
  | [] => true
  | [10] => true
  | _ => false
  end.

(** The rest of [[...]+$] once one character of the class has been read:
    stop here if [$] holds, or read one more character of the class. *)
Fixpoint class_star_dollar (s : pystr) : bool :=
  at_dollar s ||
  match s with
  | [] => false
  | c :: s' => name_class c && class_star_dollar s'
  end.

(** [re.match(r'^[a-zA-ZÀ-ÿ\s]+$', v)] as a truth value. *)
Definition re_match_name (v : pystr) : bool :=
  match v with
  | [] => false
  | c :: s => name_class c && class_star_dollar s
  end.

(** ** Exceptions and computations *)

(** The exceptions of the program: FastAPI's [HTTPException], and any other
    Python exception, known by its class name and by its [str(e)]. *)
Inductive exn :=
  | HTTPException (status_code : Z) (detail : pystr)
  | PyError (cls : string) (message : pystr).

(** [str(e)]; Starlette renders an [HTTPException] as [status: detail]. *)
Definition exn_str (e : exn) : pystr :=
  match e with
  | HTTPException status_code detail => str_int status_code ++ codes ": " ++ detail
  | PyError _ message => message
  end.

Inductive outcome (A : Type) :=
  | Return (a : A)
  | Raise (e : exn).
Arguments Return {A} a.
Arguments Raise {A} e.

(** A computation over the state [S] of the storage collaborator. A raised
    exception keeps the state reached so far: nothing is rolled back. *)
Definition M (S A : Type) : Type := S → S * outcome A.

Definition ret {S A} (a : A) : M S A := λ s, (s, Return a).
Definition raise {S A} (e : exn) : M S A := λ s, (s, Raise e).
Definition bind {S A B} (m : M S A) (k : A → M S B) : M S B :=
  λ s, match m s with
       | (s', Return a) => k a s'
       | (s', Raise e) => (s', Raise e)
       end.

(** [try: m / except ... as e: h e] with a handler that catches every
    exception ([except:] and [except Exception as e:] alike). *)
Definition try_except {S A} (m : M S A) (h : exn → M S A) : M S A :=
  λ s, match m s with
       | (s', Return a) => (s', Return a)
       | (s', Raise e) => h e s'
       end.

Global Instance M_ret {S} : MRet (M S) := λ A, ret.
Global Instance M_bind {S} : MBind (M S) := λ A B k m, bind m k.

(** [[f(x) for x in xs]] for an [f] that may raise. *)
Fixpoint for_each {S A B} (f : A → M S B) (xs : list A) : M S (list B) :=
  match xs with
  | [] => mret []
  | x :: xs' =>
      y ← f x;
      ys ← for_each f xs';
      mret (y :: ys)
  end.

(** ** Values, documents and the BSON identifier *)

(** [bson.ObjectId]: the identifier type of the store and its string codec.
    The library is not part of the repository, so it is an interface here.
    [ObjectId_new s] is the constructor [ObjectId(s)]; the program calls it
    only behind an [ObjectId.is_valid(s)] test. *)
Class Bson := {
  oid : Type;
  oid_eq_dec :: EqDecision oid;
  ObjectId_is_valid : pystr → bool;
  ObjectId_new : pystr → oid;
  oid_str : oid → pystr;
}.

Section values.
Context `{Bson}.

(** The field values that occur in the program's dicts. *)
Inductive value :=
  | VNone
  | VBool (b : bool)
  | VInt (n : Z)
  | VStr (s : pystr)
  | VOid (o : oid).

Global Instance value_eq_dec : EqDecision value.
Proof. solve_decision. Defined.

(** The right-hand side of one key of a filter: a plain value (equality), or
    a dict of operators such as [{"$gte": 18, "$lte": 30}]. *)
Inductive cond :=
  | CVal (v : value)
  | COps (ops : gmap string value).

Global Instance cond_eq_dec : EqDecision cond.
Proof. solve_decision. Defined.

(** [str(v)]. *)
Definition value_str (v : value) : pystr :=
  match v with
  | VNone => codes "None"
  | VBool b => if b then codes "True" else codes "False"
  | VInt n => str_int n
  | VStr s => s
  | VOid o => oid_str o
  end.

End values.

(** A document, a resource, or any other dict from field names to values. *)
Abbreviation document := (gmap string value).
(** A filter dict such as [filter_query]. *)
Abbreviation filter_dict := (gmap string cond).

(** ** Pydantic models *)

(** A field of a request body: left out, sent as [null], or sent with a
    value. JSON type coercion is outside the model: a field that is sent
    carries a value of the field's type. *)
Inductive supplied (A : Type) :=
  | Unset
  | Null
  | Given (a : A).
Arguments Unset {A}.
Arguments Null {A}.
Arguments Given {A} a.

Record Payload := {
  p_name : supplied pystr;
  p_email : supplied pystr;
  p_age : supplied Z;
  p_is_active : supplied bool;
}.

(** [EmailStr]: the email-validator package, which accepts a text or not and
    returns its normalised form. Not part of the repository. *)
Class EmailStr := validate_email : pystr → option pystr.

(** The entry of a [ValidationError] for field [k], if its validation gave
    no value. *)
Definition report {A} (k : string) (o : option A) : list string :=
  match o with
  | Some _ => []
  | None => [k]
  end.

(** [Field(..., min_length=2, max_length=80)] on a [str]. *)
Definition length_2_80 (v : pystr) : bool := (2 <=? len v) && (len v <=? 80).

Module UserCreate.

Record t := {
  name : pystr;
  email : pystr;
  age : Z;
  is_active : bool;
}.

(** The validator [name_must_contain_letters]: the value, or [None] for
    the [ValueError] it raises. *)
Definition name_must_contain_letters (v : pystr) : option pystr :=
  if negb (re_match_name v) then None else Some v.

(** Field [name]: required, a [str]; the length constraint of the field,
    then the validator. *)
Definition name_field (x : supplied pystr) : option pystr :=
  match x with
  | Given v => if length_2_80 v then name_must_contain_letters v else None
  | _ => None
  end.

Definition email_field `{EmailStr} (x : supplied pystr) : option pystr :=
  match x with
  | Given v => validate_email v
  | _ => None
  end.

(** Field [age]: required, [ge=0]. *)
Definition age_field (x : supplied Z) : option Z :=
  match x with
  | Given n => if 0 <=? n then Some n else None
  | _ => None
  end.

(** Field [is_active]: default [True]. *)
Definition is_active_field (x : supplied bool) : option bool :=
  match x with
  | Unset => Some true
  | Given b => Some b
  | Null => None
  end.

(** The fields that a [ValidationError] for this body reports. *)
Definition errors `{EmailStr} (p : Payload) : list string :=
  report "name" (name_field (p_name p))
  ++ report "email" (email_field (p_email p))
  ++ report "age" (age_field (p_age p))
  ++ report "is_active" (is_active_field (p_is_active p)).

(** Building the model from a request body: the model, or the fields in
    error (status 422, before the handler runs). *)
Definition validate `{EmailStr} (p : Payload) : list string + t :=
  match name_field (p_name p), email_field (p_email p),
        age_field (p_age p), is_active_field (p_is_active p) with
  | Some n, Some e, Some a, Some b =>
      inr {| name := n; email := e; age := a; is_active := b |}
  | _, _, _, _ => inl (errors p)
  end.

(** [user.model_dump()]. *)
Definition model_dump `{Bson} (u : t) : document :=
  <["name" := VStr (name u)]> (<["email" := VStr (email u)]>
    (<["age" := VInt (age u)]> (<["is_active" := VBool (is_active u)]> ∅))).

End UserCreate.

Module UserUpdate.

Record t := {
  name : supplied pystr;
  email : supplied pystr;
  age : supplied Z;
  is_active : supplied bool;
}.

(** The validator [validate_name] ([pre=True, always=True]): it sees the
    raw value, or the default [None] when the field is left out. *)
Definition validate_name (v : option pystr) : option (option pystr) :=
  match v with
  | Some s => if negb (re_match_name s) then None else Some v
  | None => Some v
  end.

(** Field [name]: the validator first, then [Optional[str]] with the
    length constraint. *)
Definition name_field (x : supplied pystr) : option (supplied pystr) :=
  match x with
  | Unset => match validate_name None with Some _ => Some Unset | None => None end
  | Null => match validate_name None with Some _ => Some Null | None => None end
  | Given s =>
      match validate_name (Some s) with
      | Some _ => if length_2_80 s then Some (Given s) else None
      | None => None
      end
  end.

Definition email_field `{EmailStr} (x : supplied pystr) : option (supplied pystr) :=
  match x with
  | Unset => Some Unset
  | Null => Some Null
  | Given v => Given <$> validate_email v
  end.

Definition age_field (x : supplied Z) : option (supplied Z) :=
  match x with
  | Given n => if 0 <=? n then Some x else None
  | _ => Some x
  end.

Definition errors `{EmailStr} (p : Payload) : list string :=
  report "name" (name_field (p_name p))
  ++ report "email" (email_field (p_email p))
  ++ report "age" (age_field (p_age p)).

Definition validate `{EmailStr} (p : Payload) : list string + t :=
  match name_field (p_name p), email_field (p_email p), age_field (p_age p) with
  | Some n, Some e, Some a =>
      inr {| name := n; email := e; age := a; is_active := p_is_active p |}
  | _, _, _ => inl (errors p)
  end.

(** One key of [model_dump(exclude_unset=True)]: absent for a field that
    was left out, [None] for an explicit null. *)
Definition dump_field `{Bson} {A} (k : string) (inj : A → value)
    (x : supplied A) (d : document) : document :=
  match x with
  | Unset => d
  | Null => <[k := VNone]> d
  | Given a => <[k := inj a]> d
  end.

(** [user_update.model_dump(exclude_unset=True)]. *)
Definition model_dump_exclude_unset `{Bson} (u : t) : document :=
  dump_field "name" VStr (name u) (dump_field "email" VStr (email u)
    (dump_field "age" VInt (age u) (dump_field "is_active" VBool (is_active u) ∅))).

End UserUpdate.

(** ** The storage collaborator *)

(** The Motor collection [users_collection], as the program uses it. Each
    method is one round trip: it may change the state of the store and it
    may raise. [find_page] is the cursor
    [find(flt).sort(key, direction).skip(skip).limit(limit)] read with
    [to_list(length)]. [update_one] returns [matched_count] and
    [delete_one] returns [deleted_count]; [insert_one] returns
    [inserted_id]. *)
Class Collection `{Bson} (S : Type) := {
  insert_one : document → M S oid;
  find_one : filter_dict → M S (option document);
  find_page : filter_dict → string → Z → Z → Z → Z → M S (list document);
  update_one : filter_dict → gmap string document → M S Z;
  delete_one : filter_dict → M S Z;
}.

Section service.
Context `{Bson} {S : Type} `{!Collection S}.

(** Truth value of a dict or [None], as in [if user:]. *)
Definition truthy (user : option document) : bool :=
  match user with
  | Some d => bool_decide (d ≠ ∅)
  | None => false
  end.

(** [{"_id": ObjectId(user_id)}]. *)
Definition by_id (user_id : pystr) : filter_dict :=
  {[ "_id" := CVal (VOid (ObjectId_new user_id)) ]}.

(** Helper [get_user_by_id]. *)
Definition get_user_by_id (user_id : pystr) : M S (option document) :=
  try_except
    (if negb (ObjectId_is_valid user_id) then mret None
     else
       user ← find_one (by_id user_id);
       mret user)
    (λ _, mret None).

(** Helper [user_to_dict]: [user["id"] = str(user["_id"])], then
    [del user["_id"]]. A dict without the key ["_id"] raises [KeyError]. *)
Definition user_to_dict (user : option document) : M S (option document) :=
  if truthy user then
    match user with
    | Some d =>
        match d !! "_id" with
        | Some v => mret (Some (delete "_id" (<["id" := VStr (value_str v)]> d)))
        | None => raise (PyError "KeyError" (codes "'_id'"))
        end
    | None => mret None
    end
  else mret None.

(** The [except Exception as e:] handler of [create_user] and
    [update_user]. *)
Definition translate_failure {A} (e : exn) : M S A :=
  if contains (codes "duplicate key error") (lower (exn_str e)) then
    raise (HTTPException 409 (codes "User with this email already exists"))
  else raise (HTTPException 500 (codes "Internal server error")).

(** [POST /users]. *)
Definition create_user (user : UserCreate.t) : M S (option document) :=
  let user_dict := UserCreate.model_dump user in
  try_except
    (inserted_id ← insert_one user_dict;
     new_user ← find_one {[ "_id" := CVal (VOid inserted_id) ]};
     user_to_dict new_user)
    translate_failure.

(** The dict [filter_query] that [get_users] builds. [if q:] holds for a
    text that is given and not empty. *)
Definition filter_query (q : option pystr) (min_age max_age : option Z)
    (is_active : option bool) : filter_dict :=
  let filter_query : filter_dict := ∅ in
  let filter_query :=
    match q with
    | Some (c :: q') =>
        <["name" := COps {[ "$regex" := VStr (c :: q'); "$options" := VStr (codes "i") ]}]>
          filter_query
    | _ => filter_query
    end in
  let filter_query :=
    if bool_decide (min_age ≠ None) || bool_decide (max_age ≠ None) then
      let age : gmap string value := ∅ in
      let age := match min_age with Some n => <["$gte" := VInt n]> age | None => age end in
      let age := match max_age with Some n => <["$lte" := VInt n]> age | None => age end in
      <["age" := COps age]> filter_query
    else filter_query in
  match is_active with
  | Some b => <["is_active" := CVal (VBool b)]> filter_query
  | None => filter_query
  end.

(** [skip = (page - 1) * limit]. *)
Definition skip_of (page limit : Z) : Z := (page - 1) * limit.

(** [GET /users]. *)
Definition get_users (q : option pystr) (min_age max_age : option Z)
    (is_active : option bool) (page limit : Z) : M S (list (option document)) :=
  let skip := skip_of page limit in
  users ← find_page (filter_query q min_age max_age is_active) "name" 1 skip limit limit;
  for_each (λ user, user_to_dict (Some user)) users.

(** [GET /users/{user_id}]. *)
Definition get_user (user_id : pystr) : M S (option document) :=
  if negb (ObjectId_is_valid user_id) then
    raise (HTTPException 400 (codes "Invalid user ID"))
  else
    user ← get_user_by_id user_id;
    if negb (truthy user) then
      raise (HTTPException 404 (codes "User not found"))
    else user_to_dict user.

(** The dict [update_data]: the fields that were sent, without the nulls. *)
Definition update_data (user_update : UserUpdate.t) : document :=
  filter (λ kv, kv.2 ≠ VNone) (UserUpdate.model_dump_exclude_unset user_update).

(** The [try] statement of [update_user], for the dict [update_data]. *)
Definition apply_update (user_id : pystr) (update_data : document)
    : M S (option document) :=
  try_except
    (matched_count ← update_one (by_id user_id) {[ "$set" := update_data ]};
     if matched_count =? 0 then
       raise (HTTPException 404 (codes "User not found"))
     else
       updated_user ← get_user_by_id user_id;
       user_to_dict updated_user)
    translate_failure.

(** [PUT /users/{user_id}]. *)
Definition update_user (user_id : pystr) (user_update : UserUpdate.t)
    : M S (option document) :=
  if negb (ObjectId_is_valid user_id) then
    raise (HTTPException 400 (codes "Invalid user ID"))
  else
    let update_data := update_data user_update in
    if bool_decide (update_data = ∅) then
      raise (HTTPException 400 (codes "No data provided for update"))
    else apply_update user_id update_data.

(** [DELETE /users/{user_id}]. *)
Definition delete_user (user_id : pystr) : M S unit :=
  if negb (ObjectId_is_valid user_id) then
    raise (HTTPException 400 (codes "Invalid user ID"))
  else
    deleted_count ← delete_one (by_id user_id);
    if deleted_count =? 0 then
      raise (HTTPException 404 (codes "User not found"))
    else mret tt.

End service.

(** ** A reference store *)

(** Modelled from the spec: the regular-expression engine of the document
    store, which is not part of the repository. [regex_search p o s] tells
    whether pattern [p] with options [o] matches somewhere in [s]. *)
Class Regex := regex_search : pystr → pystr → pystr → bool.

(** Code-point order on strings, the order of the store's default
    collation. *)
Fixpoint str_le (a b : pystr) : bool :=
  match a, b with
  | [], _ => true
  | _ :: _, [] => false
  | x :: a', y :: b' => (x <? y) || ((x =? y) && str_le a' b')
  end.

Module MemStore.

(** Modelled from the spec: the storage collaborator of section 6, a
    document store with a unique constraint on [email], predicates on
    equality, range and regular expression, sort, skip and limit. The
    store is the list of its records in insertion order, each under the
    identifier the store gave it. *)
Abbreviation store := (list (oid * document)).

Section mem.
Context `{Bson} `{!Infinite oid} `{!Regex}.

(** Modelled from the spec: the document a record is read as, with the
    store's identifier under ["_id"]. *)
Definition view (e : oid * document) : document := <["_id" := VOid e.1]> e.2.

(** Modelled from the spec: one operator of an operator dict, on the value
    [fv] of the field ("predicates on equality/range/regex-substring"). An
    operator that the program never sends holds for no document. *)
Definition op_holds (ops : gmap string value) (op : string) (arg : value)
    (fv : option value) : bool :=
  if bool_decide (op = "$gte"%string) then
    match arg, fv with
    | VInt lo, Some (VInt a) => lo <=? a
    | _, _ => false
    end
  else if bool_decide (op = "$lte"%string) then
    match arg, fv with
    | VInt hi, Some (VInt a) => a <=? hi
    | _, _ => false
    end
  else if bool_decide (op = "$regex"%string) then
    match arg, fv with
    | VStr p, Some (VStr s) =>
        regex_search p (match ops !! "$options" with Some (VStr o) => o | _ => [] end) s
    | _, _ => false
    end
  else bool_decide (op = "$options"%string).

(** Modelled from the spec: one key of a filter, on the value [fv] of the
    field of that name. *)
Definition cond_holds (c : cond) (fv : option value) : bool :=
  match c with
  | CVal v => bool_decide (fv = Some v)
  | COps ops => forallb (λ kv, op_holds ops kv.1 kv.2 fv) (map_to_list ops)
  end.

(** Modelled from the spec: a document matches a filter when every key of
    the filter holds (the predicate set is a conjunction). *)
Definition matches (flt : filter_dict) (d : document) : bool :=
  forallb (λ kc, cond_holds kc.2 (d !! kc.1)) (map_to_list flt).

(** [matches], as a decidable proposition. *)
Definition selects (flt : filter_dict) (d : document) : Prop :=
  matches flt d = true.

Global Instance selects_dec flt d : Decision (selects flt d).
Proof. unfold selects. apply _. Defined.

Global Typeclasses Opaque selects.

(** Modelled from the spec: the order of two field values in a sort, by
    type first (null or missing, numbers, strings, identifiers, booleans),
    then by value; strings in code-point order. *)
Definition rank (v : option value) : Z :=
  match v with
  | None | Some VNone => 0
  | Some (VInt _) => 1
  | Some (VStr _) => 2
  | Some (VOid _) => 3
  | Some (VBool _) => 4
  end.

(** Modelled from the spec: [a] sorts before or with [b], ascending. *)
Definition key_le (a b : option value) : bool :=
  match a, b with
  | Some (VInt x), Some (VInt y) => x <=? y
  | Some (VStr x), Some (VStr y) => str_le x y
  | Some (VBool x), Some (VBool y) => implb x y
  | _, _ => rank a <=? rank b
  end.

(** The order of two documents under the sort key [key]. *)
Definition doc_le (key : string) (d1 d2 : document) : Prop :=
  key_le (d1 !! key) (d2 !! key).

Global Instance doc_le_dec key d1 d2 : Decision (doc_le key d1 d2).
Proof. unfold doc_le. apply _. Defined.

(** Modelled from the spec: [sort(key, direction)], a stable sort;
    direction 1 is ascending. *)
Definition sort_docs (key : string) (direction : Z) (l : list document)
    : list document :=
  if direction =? 1 then merge_sort (doc_le key) l
  else merge_sort (flip (doc_le key)) l.

(** Modelled from the spec: the value of the unique index on [email] for a
    document; a missing field is indexed as null. *)
Definition email_key (d : document) : value := default VNone (d !! "email").

(** Modelled from the spec: the failure by which the store reports a
    violation of a unique index, with the text of the server's error
    E11000. *)
Definition DuplicateKeyError : exn :=
  PyError "DuplicateKeyError"
    (codes "E11000 duplicate key error collection: userdb.users index: email_1 dup key").

(** Modelled from the spec: the failure of a write that the store cannot
    carry out. *)
Definition WriteError : exn :=
  PyError "WriteError" (codes "the _id field cannot be changed").

(** Modelled from the spec: "find one", the first record that matches, or
    [None]. *)
Definition mem_find_one (flt : filter_dict) : M store (option document) :=
  λ st, (st, Return (head (filter (selects flt) (view <$> st)))).

(** Modelled from the spec: "find many matching a predicate set with
    sort/skip/limit", read up to [length] documents. The handlers reach it
    with [skip >= 0] and [limit >= 1], which FastAPI checks on [page] and
    [limit]. *)
Definition mem_find_page (flt : filter_dict) (key : string)
    (direction skip limit length : Z) : M store (list document) :=
  λ st,
    let found := filter (selects flt) (view <$> st) in
    let sorted := sort_docs key direction found in
    let page := take (Z.to_nat limit) (drop (Z.to_nat skip) sorted) in
    (st, Return (take (Z.to_nat length) page)).

(** Modelled from the spec: "insert one document enforcing a unique index
    on email". The driver gives a document without ["_id"] a new
    identifier; the store refuses a document whose [email] (or whose
    identifier) is already taken, and is then left as it was. *)
Definition mem_insert_one (doc : document) : M store oid :=
  λ st,
    match doc !! "_id" with
    | Some (VOid o) =>
        if bool_decide (o ∈ st.*1) then (st, Raise DuplicateKeyError)
        else if bool_decide (email_key doc ∈ (email_key ∘ snd) <$> st)
        then (st, Raise DuplicateKeyError)
        else (st ++ [(o, doc)], Return o)
    | Some _ => (st, Raise WriteError)
    | None =>
        let o := fresh (st.*1) in
        if bool_decide (email_key doc ∈ (email_key ∘ snd) <$> st)
        then (st, Raise DuplicateKeyError)
        else (st ++ [(o, doc)], Return o)
    end.

(** Modelled from the spec: "update one by identifier with a partial field
    set", [{"$set": fields}] on the first record that matches. The result
    is the number of matched records. A record that would take the [email]
    of another record is refused. *)
Definition mem_update_one (flt : filter_dict) (upd : gmap string document)
    : M store Z :=
  λ st,
    match list_find (λ e, selects flt (view e)) st with
    | None => (st, Return 0)
    | Some (i, e) =>
        let fields := default ∅ (upd !! "$set") in
        if bool_decide (fields !! "_id" ≠ None ∧ fields !! "_id" ≠ Some (VOid e.1))
        then (st, Raise WriteError)
        else
          let body := fields ∪ e.2 in
          if bool_decide (email_key body ∈ (email_key ∘ snd) <$> delete i st)
          then (st, Raise DuplicateKeyError)
          else (<[i := (e.1, body)]> st, Return 1)
    end.

(** Modelled from the spec: "delete one by identifier", the first record
    that matches. The result is the number of deleted records. *)
Definition mem_delete_one (flt : filter_dict) : M store Z :=
  λ st,
    match list_find (λ e, selects flt (view e)) st with
    | None => (st, Return 0)
    | Some (i, _) => (delete i st, Return 1)
    end.

(** The reference store as a collaborator of the handlers. *)
Global Instance collection : Collection store := {|
  insert_one := mem_insert_one;
  find_one := mem_find_one;
  find_page := mem_find_page;
  update_one := mem_update_one;
  delete_one := mem_delete_one;
|}.

(** The identifiers of the records are pairwise distinct. *)
Definition wf (st : store) : Prop := NoDup (st.*1).

(** The dict that [user_to_dict] makes of a document that has an ["_id"]. *)
Definition to_resource (d : document) : document :=
  delete "_id" (<["id" := VStr (value_str (default VNone (d !! "_id")))]> d).

(** The resource of a record of the store. *)
Definition resource (e : oid * document) : document := to_resource (view e).

(** The records of the store that a filter selects, as they are read. *)
Definition selected (flt : filter_dict) (st : store) : list document :=
  filter (selects flt) (view <$> st).

End mem.
End MemStore.

(** A collaborator that cannot be reached: every round trip raises. Its
    state counts the round trips that were tried. *)
Module Unreachable.
Section down.
Context `{Bson}.

Definition failure : exn :=
  PyError "ServerSelectionTimeoutError" (codes "localhost:27017: connection refused").

Definition round_trip {A} : M nat A := λ n, (Datatypes.S n, Raise failure).

Global Instance collection : Collection nat := {|
  insert_one _ := round_trip;
  find_one _ := round_trip;
  find_page _ _ _ _ _ _ := round_trip;
  update_one _ _ := round_trip;
  delete_one _ := round_trip;
|}.

End down.
End Unreachable.

(** ** Sample instances and data *)

Module Sample.

Definition is_hex (c : Z) : bool :=
  ((48 <=? c) && (c <=? 57)) || ((97 <=? c) && (c <=? 102))
  || ((65 <=? c) && (c <=? 70)).

(** An ObjectId kept as its canonical text, 24 hexadecimal digits in lower
    case. *)
#[export] Instance hex_bson : Bson := {|
  oid := pystr;
  ObjectId_is_valid s := (len s =? 24) && forallb is_hex s;
  ObjectId_new s := lower s;
  oid_str o := o;
|}.

(** A text with an [@] passes, unchanged. *)
#[export] Instance at_email : EmailStr :=
  λ v, if contains (codes "@") v then Some v else None.

(** Patterns without metacharacters: substring search, without case under
    option [i]. *)
#[export] Instance plain_regex : Regex :=
  λ p o s, if contains (codes "i") o then contains (lower p) (lower s)
           else contains p s.

Definition doc (name email : string) (age : Z) (is_active : bool) : document :=
  UserCreate.model_dump
    {| UserCreate.name := codes name; UserCreate.email := codes email;
       UserCreate.age := age; UserCreate.is_active := is_active |}.

Definition id0 : pystr := codes "000000000000000000000000".
Definition id1 : pystr := codes "65a1f0c2e4b0a1b2c3d4e5f6".
Definition id2 : pystr := codes "65a1f0c2e4b0a1b2c3d4e5f7".

Definition two_users : MemStore.store :=
  [ (id1, doc "Bob" "bob@x.org" 30 true);
    (id2, doc "Ana" "ana@x.org" 17 true) ].

Definition only_ana : MemStore.store :=
  [ (id2, doc "Ana" "ana@x.org" 17 true) ].

Definition ada : UserCreate.t :=
  {| UserCreate.name := codes "Ada"; UserCreate.email := codes "ada@x.org";
     UserCreate.age := 36; UserCreate.is_active := true |}.

Definition eve : UserCreate.t :=
  {| UserCreate.name := codes "Eve"; UserCreate.email := codes "ada@x.org";
     UserCreate.age := 5; UserCreate.is_active := false |}.

Definition only_age (n : Z) : UserUpdate.t :=
  {| UserUpdate.name := Unset; UserUpdate.email := Unset;
     UserUpdate.age := Given n; UserUpdate.is_active := Unset |}.

Definition only_is_active (b : bool) : UserUpdate.t :=
  {| UserUpdate.name := Unset; UserUpdate.email := Unset;
     UserUpdate.age := Unset; UserUpdate.is_active := Given b |}.

(** The request body [{}]. *)
Definition empty_body : Payload :=
  {| p_name := Unset; p_email := Unset; p_age := Unset; p_is_active := Unset |}.

(** New identifiers for the sample store. *)
#[export] Instance hex_infinite : Infinite (@oid hex_bson) := list_infinite.

Definition nth_id (i : Z) : pystr :=
  codes "65a1f0c2e4b0a1b2c3d4e5" ++ [48 + i `div` 10; 48 + i `mod` 10].

(** Fifteen active adults and two records that the filter
    [min_age=18, is_active=true] leaves out. *)
Definition seventeen_users : MemStore.store :=
  (nth_id 90, doc "Zed" "zed@x.org" 12 true)
  :: (nth_id 91, doc "Abe" "abe@x.org" 50 false)
  :: zip_with (λ i n, (nth_id i, doc n (n +:+ "@x.org") (18 + i) true))
       (seqZ 0 15)
       ["Oto"; "Ned"; "Mia"; "Lea"; "Kim"; "Jan"; "Ida"; "Hal"; "Gus"; "Fay";
        "Eva"; "Dan"; "Cid"; "Bea"; "Ana"]%string.

End Sample.

(** ** Sample instances with numbered identifiers *)

Module Numbered.

Definition hex_digit (d : Z) : Z := if d <? 10 then 48 + d else 87 + d.

(** The last [width] hexadecimal digits of [n], in lower case. *)
Fixpoint to_hex (width : nat) (n : Z) : pystr :=
  match width with
  | O => []
  | Datatypes.S w => to_hex w (n `div` 16) ++ [hex_digit (n `mod` 16)]
  end.

Definition hex_value (c : Z) : Z :=
  if (48 <=? c) && (c <=? 57) then c - 48
  else if (97 <=? c) && (c <=? 102) then c - 87
  else c - 55.

Definition of_hex (s : pystr) : Z :=
  fold_left (λ acc c, acc * 16 + hex_value c) s 0.

(** An ObjectId kept as the number that its twelve bytes spell; its text is
    that number in 24 hexadecimal digits. *)
#[export] Instance num_bson : Bson := {|
  oid := N;
  ObjectId_is_valid s := (len s =? 24) && forallb Sample.is_hex s;
  ObjectId_new s := Z.to_N (of_hex s);
  oid_str o := to_hex 24 (Z.of_N o);
|}.

#[export] Instance num_infinite : Infinite (@oid num_bson) := N_infinite.

#[export] Existing Instance Sample.plain_regex.

Definition doc (name email : string) (age : Z) (is_active : bool) : document :=
  UserCreate.model_dump
    {| UserCreate.name := codes name; UserCreate.email := codes email;
       UserCreate.age := age; UserCreate.is_active := is_active |}.

Definition two_users : MemStore.store :=
  [ (7%N, doc "Bob" "bob@x.org" 30 true);
    (4660%N, doc "Ana" "ana@x.org" 17 true) ].

End Numbered.

(** ** More sample data *)

Module MoreSamples.

Definition bob : document := Sample.doc "Bob" "bob@x.org" 30 true.

Definition bob_view : document := MemStore.view (H:=Sample.hex_bson) (Sample.id1, bob).

Definition bob_resource : document :=
  MemStore.resource (H:=Sample.hex_bson) (Sample.id1, bob).

(** The body [{"name": "Ada", "email": "ada@x.org", "age": 36}]. *)
Definition ada_body : Payload :=
  {| p_name := Given (codes "Ada"); p_email := Given (codes "ada@x.org");
     p_age := Given 36; p_is_active := Unset |}.

(** The body [{"age": 31, "is_active": null}]. *)
Definition age_body : Payload :=
  {| p_name := Unset; p_email := Unset; p_age := Given 31; p_is_active := Null |}.

Definition age_update : UserUpdate.t :=
  {| UserUpdate.name := Unset; UserUpdate.email := Unset;
     UserUpdate.age := Given 31; UserUpdate.is_active := Null |}.

(** An update that asks for the email of another record. *)
Definition email_update : UserUpdate.t :=
  {| UserUpdate.name := Unset; UserUpdate.email := Given (codes "ana@x.org");
     UserUpdate.age := Unset; UserUpdate.is_active := Unset |}.

(** A store in which Ada is registered already. *)
Definition three_users : list (pystr * gmap string (@value Sample.hex_bson)) :=
  (Sample.id0, Sample.doc "Ada" "ada@x.org" 36 true) :: Sample.two_users.

Definition nothing_sent : UserUpdate.t :=
  {| UserUpdate.name := Unset; UserUpdate.email := Null;
     UserUpdate.age := Unset; UserUpdate.is_active := Unset |}.

End MoreSamples.

(** ** The specification's reading of the name rule *)

(** The letters of the Basic Latin and Latin-1 blocks: [A]-[Z], [a]-[z] and
    the accented letters U+00C0 to U+00FF, without the two signs U+00D7
    (multiplication) and U+00F7 (division) that sit among them. *)
Definition spec_letter (c : Z) : bool :=
  ((97 <=? c) && (c <=? 122)) || ((65 <=? c) && (c <=? 90))
  || ((192 <=? c) && (c <=? 255) && negb (c =? 215) && negb (c =? 247)).

(** The rule in the words of the specification: length in [2, 80], only
    letters and spaces. *)
Definition spec_name_rule (v : pystr) : bool :=
  length_2_80 v && forallb (λ c, spec_letter c || (c =? 32)) v.

(** A field of a request body that carries no value. *)
Definition without_value {A} (x : supplied A) : bool :=
  match x with
  | Given _ => false
  | _ => true
  end.

(** A request body in which no field is supplied, or every supplied field is
    null. *)
Definition nothing_given (p : Payload) : bool :=
  without_value (p_name p) && without_value (p_email p)
  && without_value (p_age p) && without_value (p_is_active p).

(** The order in which [get_users] promises its records: by the value under
    ["name"]. *)
Definition by_name `{Bson} (r1 r2 : option document) : Prop :=
  MemStore.key_le (r1 ≫= (.!! "name")) (r2 ≫= (.!! "name")).

(** * Properties *)

Section monad_facts.
Context {S : Type}.

Lemma bind_return {A B} (m : M S A) (k : A → M S B) s s' a :
  m s = (s', Return a) → (m ≫= k) s = k a s'.
Proof. intros E. unfold mbind, M_bind, bind. by rewrite E. Qed.

Lemma bind_raise {A B} (m : M S A) (k : A → M S B) s s' e :
  m s = (s', Raise e) → (m ≫= k) s = (s', Raise e).
Proof. intros E. unfold mbind, M_bind, bind. by rewrite E. Qed.

Lemma try_return {A} (m : M S A) h s s' a :
  m s = (s', Return a) → try_except m h s = (s', Return a).
Proof. intros E. unfold try_except. by rewrite E. Qed.

Lemma try_raise {A} (m : M S A) h s s' e :
  m s = (s', Raise e) → try_except m h s = h e s'.
Proof. intros E. unfold try_except. by rewrite E. Qed.

Lemma for_each_total {A B} (f : A → M S B) (g : A → B) xs s :
  (∀ x s, x ∈ xs → f x s = (s, Return (g x))) →
  for_each f xs s = (s, Return (g <$> xs)).
Proof.
  induction xs as [|x xs IH]; intros Hf; [done|].
  cbn [for_each]. erewrite bind_return; [|apply Hf; left].
  erewrite bind_return; [done|]. apply IH. intros y t Hy. apply Hf. by right.
Qed.

End monad_facts.

(** ** The name pattern *)

Section name_pattern.

Lemma at_dollar_cons c s :
  at_dollar (c :: s) = bool_decide (c = 10 ∧ s = []).
Proof.
  destruct s as [|c' s]; cbn.
  - destruct (decide (c = 10)) as [->|Hc]; [done|].
    rewrite bool_decide_eq_false_2 by (intros [? ?]; congruence).
    repeat case_match; congruence.
  - rewrite bool_decide_eq_false_2 by (intros [? ?]; congruence).
    repeat case_match; congruence.
Qed.

Lemma class_star_dollar_class s :
  class_star_dollar s = forallb name_class s.
Proof.
  induction s as [|c s IH]; [done|].
  cbn [class_star_dollar forallb]. rewrite IH, at_dollar_cons.
  case_bool_decide as Hd; [|done].
  by destruct Hd as [-> ->].
Qed.

(** The pattern matches exactly the non-empty texts whose code points all
    lie in the character class. *)
Lemma re_match_name_class v :
  re_match_name v = negb (bool_decide (v = [])) && forallb name_class v.
Proof.
  destruct v as [|c s]; [done|].
  cbn [re_match_name forallb]. by rewrite class_star_dollar_class.
Qed.

(** What [UserCreate] accepts under [name]: a length in [2, 80] and code
    points of the class only. *)
Lemma create_name_accepted v :
  UserCreate.name_field (Given v) = Some v ↔
  2 ≤ len v ≤ 80 ∧ ∀ c, c ∈ v → name_class c = true.
Proof.
  unfold UserCreate.name_field, UserCreate.name_must_contain_letters, length_2_80.
  rewrite re_match_name_class.
  split.
  - destruct (2 <=? len v) eqn:E1, (len v <=? 80) eqn:E2; cbn; try done.
    destruct (bool_decide (v = [])); cbn; [done|].
    destruct (forallb name_class v) eqn:E3; cbn; [|done].
    intros _. split; [lia|].
    intros c Hc. rewrite forallb_forall in E3. apply E3. by apply list_elem_of_In.
  - intros [[H1 H2] H3].
    assert (forallb name_class v = true) as ->.
    { apply forallb_forall. intros c Hc. apply H3. by apply list_elem_of_In. }
    assert (bool_decide (v = []) = false) as ->.
    { apply bool_decide_eq_false. intros ->. unfold len in H1. cbn in H1. lia. }
    destruct (2 <=? len v) eqn:E1, (len v <=? 80) eqn:E2; cbn; try done; lia.
Qed.

(** Either the field gives the name back or it gives an error. *)
Lemma create_name_rejected v :
  UserCreate.name_field (Given v) = None ↔
  ¬ (2 ≤ len v ≤ 80 ∧ ∀ c, c ∈ v → name_class c = true).
Proof.
  rewrite <-create_name_accepted.
  unfold UserCreate.name_field, UserCreate.name_must_contain_letters.
  repeat case_match; naive_solver.
Qed.

Lemma elem_of_report {A} (k x : string) (o : option A) :
  x ∈ report k o ↔ x = k ∧ o = None.
Proof.
  destruct o; cbn.
  - rewrite elem_of_nil. split; [done|]. by intros [_ ?].
  - rewrite list_elem_of_singleton. split; [by intros ->|by intros [-> _]].
Qed.

Lemma create_name_A1 `{EmailStr} p :
  p_name p = Given (codes "A1") → "name"%string ∈ UserCreate.errors p.
Proof. intros E. unfold UserCreate.errors. rewrite E. set_solver. Qed.

End name_pattern.

(** ** The operations over any collaborator *)

Section service_facts.
Context `{Bson} {S : Type} `{!Collection S}.

Lemma not_a_duplicate_404 :
  contains (codes "duplicate key error")
    (lower (exn_str (HTTPException 404 (codes "User not found")))) = false.
Proof. by vm_compute. Qed.

Lemma translate_failure_other {A} (e : exn) (s : S) :
  contains (codes "duplicate key error") (lower (exn_str e)) = false →
  translate_failure (A:=A) e s
  = (s, Raise (HTTPException 500 (codes "Internal server error"))).
Proof. intros E. unfold translate_failure. by rewrite E. Qed.

Lemma translate_failure_duplicate {A} (e : exn) (s : S) :
  contains (codes "duplicate key error") (lower (exn_str e)) = true →
  translate_failure (A:=A) e s
  = (s, Raise (HTTPException 409 (codes "User with this email already exists"))).
Proof. intros E. unfold translate_failure. by rewrite E. Qed.

(** The helper turns every failure of the lookup into [None]. *)
Lemma get_user_by_id_failure user_id s s' e :
  ObjectId_is_valid user_id = true →
  find_one (by_id user_id) s = (s', Raise e) →
  get_user_by_id user_id s = (s', Return None).
Proof.
  intros Hv Hf. unfold get_user_by_id. rewrite Hv. cbn [negb].
  erewrite try_raise; [done|]. by apply bind_raise.
Qed.



(** [delete_user] has no handler: a failure of the delete leaves it as it
    is. *)
Lemma delete_user_failure user_id s s' e :
  ObjectId_is_valid user_id = true →
  delete_one (by_id user_id) s = (s', Raise e) →
  delete_user user_id s = (s', Raise e).
Proof.
  intros Hv Hd. unfold delete_user. rewrite Hv. cbn [negb]. by apply bind_raise.
Qed.

(** [get_users] has no handler either. *)
Lemma get_users_failure q min_age max_age is_active page limit s s' e :
  find_page (filter_query q min_age max_age is_active) "name" 1
    (skip_of page limit) limit limit s = (s', Raise e) →
  get_users q min_age max_age is_active page limit s = (s', Raise e).
Proof. intros Hf. unfold get_users. by apply bind_raise. Qed.

(** The value of a field that was sent is a key of [update_data]. *)
Lemma update_data_is_active u b :
  UserUpdate.is_active u = Given b → update_data u !! "is_active" = Some (VBool b).
Proof.
  intros E. unfold update_data. apply map_lookup_filter_Some. split; [|done].
  unfold UserUpdate.model_dump_exclude_unset. rewrite E.
  destruct (UserUpdate.name u), (UserUpdate.email u), (UserUpdate.age u);
    cbn [UserUpdate.dump_field]; by simplify_map_eq.
Qed.

Lemma update_data_age u n :
  UserUpdate.age u = Given n → update_data u !! "age" = Some (VInt n).
Proof.
  intros E. unfold update_data. apply map_lookup_filter_Some. split; [|done].
  unfold UserUpdate.model_dump_exclude_unset. rewrite E.
  destruct (UserUpdate.name u), (UserUpdate.email u), (UserUpdate.is_active u);
    cbn [UserUpdate.dump_field]; by simplify_map_eq.
Qed.

Lemma update_data_only_is_active b :
  update_data (Sample.only_is_active b) = {[ "is_active" := VBool b ]}.
Proof.
  unfold update_data, Sample.only_is_active, UserUpdate.model_dump_exclude_unset.
  cbn [UserUpdate.dump_field UserUpdate.name UserUpdate.email UserUpdate.age
       UserUpdate.is_active].
  rewrite insert_empty. by apply map_filter_singleton_True.
Qed.

Lemma update_data_only_age n :
  update_data (Sample.only_age n) = {[ "age" := VInt n ]}.
Proof.
  unfold update_data, Sample.only_age, UserUpdate.model_dump_exclude_unset.
  cbn [UserUpdate.dump_field UserUpdate.name UserUpdate.email UserUpdate.age
       UserUpdate.is_active].
  rewrite insert_empty. by apply map_filter_singleton_True.
Qed.

Lemma singleton_not_empty (k : string) (v : value) :
  ({[ k := v ]} : document) ≠ ∅.
Proof.
  intros E. pose proof (lookup_singleton_eq (M:=gmap string) k v) as Hl.
  rewrite E in Hl. by rewrite lookup_empty in Hl.
Qed.

(** With a valid identifier, an update that carries one field goes on to the
    write with exactly that field. *)
Lemma update_user_one_field user_id u k v (s : S) :
  ObjectId_is_valid user_id = true →
  update_data u = {[ k := v ]} →
  update_user user_id u s = apply_update user_id {[ k := v ]} s.
Proof.
  intros Hv Hu. unfold update_user. rewrite Hv, Hu. cbn [negb].
  by rewrite bool_decide_eq_false_2 by apply singleton_not_empty.
Qed.

Lemma dump_field_without_value {A} k (inj : A → value) (x : supplied A) d :
  without_value x = true →
  filter (λ kv : string * value, kv.2 ≠ VNone) d = ∅ →
  filter (λ kv : string * value, kv.2 ≠ VNone) (UserUpdate.dump_field k inj x d) = ∅.
Proof.
  intros Hx Hd. destruct x; [done| |done]. cbn [UserUpdate.dump_field].
  apply map_empty_filter. intros i v Hi Hv.
  apply lookup_insert_Some in Hi as [[<- <-]|[_ Hi]]; [done|].
  rewrite map_empty_filter in Hd. by apply (Hd i v).
Qed.

End service_facts.

(** ** The reference store *)

Section mem_facts.
Context `{Bson} `{!Infinite oid} `{!Regex}.
Import MemStore.

Lemma matches_id (o : oid) (e : oid * document) :
  matches {[ "_id" := CVal (VOid o) ]} (view e) = bool_decide (e.1 = o).
Proof.
  unfold matches. rewrite map_to_list_singleton. cbn.
  unfold view. rewrite lookup_insert_eq, andb_true_r.
  apply bool_decide_ext. split; congruence.
Qed.

Lemma view_id e : view e !! "_id" = Some (VOid e.1).
Proof. unfold view. by rewrite lookup_insert_eq. Qed.

Lemma view_field e k : k ≠ "_id"%string → view e !! k = e.2 !! k.
Proof. intros. unfold view. by rewrite lookup_insert_ne. Qed.

(** [user_to_dict] on a record of the store. *)
Lemma user_to_dict_view {S} `{!Collection S} (e : oid * document) (s : S) :
  user_to_dict (Some (view e)) s = (s, Return (Some (resource e))).
Proof.
  unfold user_to_dict, truthy.
  rewrite bool_decide_eq_true_2.
  - unfold resource, to_resource. by rewrite view_id.
  - intros E. pose proof (view_id e) as Hv. rewrite E in Hv. by rewrite lookup_empty in Hv.
Qed.

Lemma to_resource_field d k :
  k ≠ "_id"%string → k ≠ "id"%string → to_resource d !! k = d !! k.
Proof.
  intros H1 H2. unfold to_resource.
  by rewrite lookup_delete_ne, lookup_insert_ne.
Qed.

Lemma resource_id e : resource e !! "id" = Some (VStr (oid_str e.1)).
Proof.
  unfold resource, to_resource.
  by rewrite lookup_delete_ne, lookup_insert_eq, view_id.
Qed.

(** No record under an identifier: nothing is found, nothing is matched. *)
Lemma selected_id_none (o : oid) (st : store) :
  o ∉ st.*1 → selected {[ "_id" := CVal (VOid o) ]} st = [].
Proof.
  intros Ho. unfold selected. induction st as [|e st IH]; [done|].
  rewrite fmap_cons, not_elem_of_cons in Ho. destruct Ho as [Hne Ho].
  rewrite fmap_cons, filter_cons_False; [by apply IH|].
  unfold selects. rewrite matches_id. intros Hb%bool_decide_eq_true. congruence.
Qed.

Lemma selected_app flt st1 st2 :
  selected flt (st1 ++ st2) = selected flt st1 ++ selected flt st2.
Proof. unfold selected. by rewrite fmap_app, filter_app. Qed.

Lemma list_find_id_none (o : oid) (st : store) :
  o ∉ st.*1 →
  list_find (λ e, selects {[ "_id" := CVal (VOid o) ]} (view e)) st = None.
Proof.
  intros Ho. apply list_find_None, Forall_forall. intros e He.
  unfold selects. rewrite matches_id. intros Hb%bool_decide_eq_true.
  apply Ho. rewrite <-Hb. by apply list_elem_of_fmap_2.
Qed.

Lemma mem_update_one_unmatched user_id upd (st : store) :
  ObjectId_new user_id ∉ st.*1 →
  update_one (by_id user_id) upd st = (st, Return 0).
Proof.
  intros Ho. cbn. unfold mem_update_one, by_id. by rewrite list_find_id_none.
Qed.

Lemma mem_delete_one_unmatched user_id (st : store) :
  ObjectId_new user_id ∉ st.*1 →
  delete_one (by_id user_id) st = (st, Return 0).
Proof.
  intros Ho. cbn. unfold mem_delete_one, by_id. by rewrite list_find_id_none.
Qed.

Lemma model_dump_id u : UserCreate.model_dump u !! "_id" = None.
Proof. unfold UserCreate.model_dump. by simplify_map_eq. Qed.

Lemma model_dump_email u :
  email_key (UserCreate.model_dump u) = VStr (UserCreate.email u).
Proof. unfold email_key, UserCreate.model_dump. by simplify_map_eq. Qed.

Lemma duplicate_key_is_recognised :
  contains (codes "duplicate key error") (lower (exn_str DuplicateKeyError)) = true.
Proof. by vm_compute. Qed.

(** An insert under a free email appends the record under a new
    identifier. *)
Lemma mem_insert_one_free u (st : store) :
  VStr (UserCreate.email u) ∉ (email_key ∘ snd) <$> st →
  insert_one (UserCreate.model_dump u) st
  = (st ++ [(fresh (st.*1), UserCreate.model_dump u)], Return (fresh (st.*1))).
Proof.
  intros He. cbn. unfold mem_insert_one.
  rewrite model_dump_id, model_dump_email.
  by rewrite bool_decide_eq_false_2.
Qed.

(** An insert under a taken email is refused and changes nothing. *)
Lemma mem_insert_one_taken u (st : store) :
  VStr (UserCreate.email u) ∈ (email_key ∘ snd) <$> st →
  insert_one (UserCreate.model_dump u) st = (st, Raise DuplicateKeyError).
Proof.
  intros He. cbn. unfold mem_insert_one.
  rewrite model_dump_id, model_dump_email.
  by rewrite bool_decide_eq_true_2.
Qed.

(** The record that was just appended is the one found under its
    identifier. *)
Lemma mem_find_one_appended (o : oid) d (st : store) :
  o ∉ st.*1 →
  find_one {[ "_id" := CVal (VOid o) ]} (st ++ [(o, d)])
  = (st ++ [(o, d)], Return (Some (view (o, d)))).
Proof.
  intros Ho. cbn. unfold mem_find_one. do 2 f_equal.
  change (head (selected {[ "_id" := CVal (VOid o) ]} (st ++ [(o, d)])) = Some (view (o, d))).
  rewrite selected_app, selected_id_none by done.
  unfold selected. rewrite app_nil_l, list_fmap_singleton, filter_cons_True; [done|].
  unfold selects. rewrite matches_id. by apply bool_decide_eq_true.
Qed.

(** A document that a filter selects satisfies each key of the filter. *)
Lemma matches_lookup flt (d : document) k c :
  matches flt d = true → flt !! k = Some c → cond_holds c (d !! k) = true.
Proof.
  unfold matches. rewrite forallb_forall. intros Hm Hk.
  apply (Hm (k, c)), list_elem_of_In. by apply elem_of_map_to_list.
Qed.

Lemma cond_holds_op ops op arg fv :
  cond_holds (COps ops) fv = true → ops !! op = Some arg →
  op_holds ops op arg fv = true.
Proof.
  cbn. rewrite forallb_forall. intros Hm Hk.
  apply (Hm (op, arg)), list_elem_of_In. by apply elem_of_map_to_list.
Qed.

Lemma selected_matches flt (st : store) d :
  d ∈ selected flt st → matches flt d = true ∧ ∃ e, e ∈ st ∧ d = view e.
Proof.
  unfold selected. rewrite list_elem_of_filter, list_elem_of_fmap.
  intros [Hm (e & -> & He)]. split; [done|eauto].
Qed.

Lemma op_holds_gte ops lo fv :
  op_holds ops "$gte" (VInt lo) fv = true → ∃ a, fv = Some (VInt a) ∧ lo ≤ a.
Proof.
  unfold op_holds. rewrite bool_decide_eq_true_2 by done.
  destruct fv as [[| |a| |]|]; try done. intros Ha. exists a. split; [done|lia].
Qed.

Lemma op_holds_lte ops hi fv :
  op_holds ops "$lte" (VInt hi) fv = true → ∃ a, fv = Some (VInt a) ∧ a ≤ hi.
Proof.
  unfold op_holds. rewrite bool_decide_eq_false_2 by done.
  rewrite bool_decide_eq_true_2 by done.
  destruct fv as [[| |a| |]|]; try done. intros Ha. exists a. split; [done|lia].
Qed.

(** The age of a selected document lies within the bounds of the filter. *)
Lemma selected_age_range flt (st : store) d lo hi :
  flt !! "age" = Some (COps {[ "$gte" := VInt lo; "$lte" := VInt hi ]}) →
  d ∈ selected flt st →
  ∃ a, d !! "age" = Some (VInt a) ∧ lo ≤ a ≤ hi.
Proof.
  intros Hf Hd. apply selected_matches in Hd as [Hm _].
  pose proof (matches_lookup _ _ _ _ Hm Hf) as Hc.
  destruct (op_holds_gte _ _ _ (cond_holds_op _ "$gte" (VInt lo) _ Hc
    (lookup_insert_eq _ _ _))) as (a & Ha & Hlo).
  assert (({[ "$gte" := VInt lo; "$lte" := VInt hi ]} : gmap string value) !! "$lte"
          = Some (VInt hi)) as Hk.
  { rewrite lookup_insert_ne by done. apply lookup_singleton_eq. }
  destruct (op_holds_lte _ _ _ (cond_holds_op _ "$lte" (VInt hi) _ Hc Hk))
    as (a' & Ha' & Hhi).
  exists a. split; [done|]. split; [done|]. congruence.
Qed.

Lemma str_le_total a b : str_le a b = true ∨ str_le b a = true.
Proof.
  revert b. induction a as [|x a IH]; intros [|y b]; cbn; auto.
  destruct (IH b) as [E|E]; rewrite E;
    destruct (Z.ltb_spec x y), (Z.ltb_spec y x), (Z.eqb_spec x y), (Z.eqb_spec y x);
    cbn; auto; lia.
Qed.

Lemma str_le_trans a b c :
  str_le a b = true → str_le b c = true → str_le a c = true.
Proof.
  revert b c. induction a as [|x a IH]; intros [|y b] [|z c]; cbn; try done.
  intros H1 H2.
  destruct (Z.ltb_spec x y), (Z.ltb_spec y z), (Z.ltb_spec x z),
    (Z.eqb_spec x y), (Z.eqb_spec y z), (Z.eqb_spec x z);
    cbn in *; try done; try lia.
  by apply (IH b c).
Qed.

Global Instance key_le_total : Total (λ a b : option value, Is_true (key_le a b)).
Proof.
  intros a b.
  destruct a as [[|x|x|x|x]|], b as [[|y|y|y|y]|]; cbn; auto.
  - destruct x, y; cbn; auto.
  - destruct (Z.leb_spec x y), (Z.leb_spec y x); cbn; auto; lia.
  - destruct (str_le_total x y) as [E|E]; rewrite E; cbn; auto.
Qed.

Global Instance key_le_trans : Transitive (λ a b : option value, Is_true (key_le a b)).
Proof.
  intros a b c.
  destruct a as [[|x|x|x|x]|], b as [[|y|y|y|y]|], c as [[|z|z|z|z]|];
    cbn; try done.
  - by destruct x, y, z.
  - rewrite !Is_true_true, !Z.leb_le. lia.
  - rewrite !Is_true_true. apply str_le_trans.
Qed.

Global Instance doc_le_total key : Total (doc_le key).
Proof. intros d1 d2. apply key_le_total. Qed.

Global Instance doc_le_trans key : Transitive (doc_le key).
Proof. intros d1 d2 d3. apply key_le_trans. Qed.

Lemma StronglySorted_take {A} (R : relation A) n l :
  StronglySorted R l → StronglySorted R (take n l).
Proof.
  intros Hl. revert n. induction Hl as [|x l Hl IH Hx]; intros [|n]; cbn;
    try constructor; [by apply IH|].
  eapply Forall_impl; [|done].
  apply Forall_forall. intros y Hy%subseteq_take. by rewrite Forall_forall in Hx; apply Hx.
Qed.

Lemma StronglySorted_drop {A} (R : relation A) n l :
  StronglySorted R l → StronglySorted R (drop n l).
Proof.
  intros Hl. revert n. induction Hl as [|x l Hl IH Hx]; intros [|n]; cbn;
    try constructor; auto.
Qed.

Lemma sort_docs_sorted key l : StronglySorted (doc_le key) (sort_docs key 1 l).
Proof. unfold sort_docs. cbn. apply StronglySorted_merge_sort; apply _. Qed.

Lemma sort_docs_perm key l : sort_docs key 1 l ≡ₚ l.
Proof. unfold sort_docs. cbn. apply merge_sort_Permutation. Qed.

(** The page that [find_page] reads: the selected records in the order of
    the sort key, without the first [skip], cut at [limit]. *)
Lemma mem_find_page flt key skip limit (st : store) :
  find_page flt key 1 skip limit limit st
  = (st, Return (take (Z.to_nat limit)
                   (drop (Z.to_nat skip) (sort_docs key 1 (selected flt st))))).
Proof.
  cbn. unfold mem_find_page. do 2 f_equal.
  rewrite take_take. f_equal. lia.
Qed.

Lemma sorted_page_selected flt key skip limit (st : store) d :
  d ∈ take limit (drop skip (sort_docs key 1 (selected flt st))) →
  d ∈ selected flt st.
Proof.
  intros Hd%subseteq_take%subseteq_drop. by rewrite sort_docs_perm in Hd.
Qed.

(** [get_users] against the reference store: the resources of the page. *)
Lemma get_users_mem q min_age max_age is_active page limit (st : store) :
  get_users q min_age max_age is_active page limit st
  = (st, Return ((Some ∘ to_resource) <$>
       take (Z.to_nat limit) (drop (Z.to_nat (skip_of page limit))
         (sort_docs "name" 1
            (selected (filter_query q min_age max_age is_active) st))))).
Proof.
  unfold get_users. erewrite bind_return; [|apply mem_find_page].
  apply for_each_total. intros d s Hd.
  apply sorted_page_selected, selected_matches in Hd as [_ (e & _ & ->)].
  apply user_to_dict_view.
Qed.

Lemma wf_same_record (st : store) e1 e2 :
  wf st → e1 ∈ st → e2 ∈ st → e1.1 = e2.1 → e1 = e2.
Proof.
  unfold wf. induction st as [|e st IH]; [by intros _ ?%elem_of_nil|].
  rewrite fmap_cons, NoDup_cons. intros [Hn Hd] H1 H2 E.
  apply elem_of_cons in H1 as [->|H1], H2 as [->|H2]; auto.
  - destruct Hn. rewrite E. by apply list_elem_of_fmap_2.
  - destruct Hn. rewrite <-E. by apply list_elem_of_fmap_2.
Qed.

Lemma selected_NoDup flt (st : store) : wf st → NoDup (selected flt st).
Proof.
  intros Hwf. unfold selected. apply NoDup_filter.
  apply NoDup_fmap_2_strong; [|by eapply NoDup_fmap_1].
  intros e1 e2 H1 H2 Hv. apply (wf_same_record st); [done..|].
  pose proof (view_id e1) as E1. rewrite Hv, view_id in E1. congruence.
Qed.

(** Two selected records with the same resource are the same record, when
    identifiers print to distinct texts. *)
Lemma to_resource_inj flt (st : store) d1 d2 :
  Inj (=) (=) oid_str → wf st →
  d1 ∈ selected flt st → d2 ∈ selected flt st →
  to_resource d1 = to_resource d2 → d1 = d2.
Proof.
  intros Hinj Hwf [_ (e1 & H1 & ->)]%selected_matches
    [_ (e2 & H2 & ->)]%selected_matches Hr.
  f_equal. apply (wf_same_record st); [done..|].
  apply Hinj. pose proof (resource_id e1) as E1.
  unfold resource in E1. rewrite Hr in E1. fold (resource e2) in E1.
  rewrite resource_id in E1. congruence.
Qed.

(** Two pages that do not overlap in the sorted selection share no
    resource. *)
Lemma pages_disjoint flt (st : store) (n m : nat) r :
  Inj (=) (=) oid_str → wf st →
  let sorted := sort_docs "name" 1 (selected flt st) in
  r ∈ (Some ∘ to_resource) <$> take n sorted →
  r ∉ (Some ∘ to_resource) <$> take m (drop n sorted).
Proof.
  intros Hinj Hwf sorted (d1 & -> & H1)%list_elem_of_fmap (d2 & E & H2)%list_elem_of_fmap.
  assert (NoDup sorted) as Hnd.
  { unfold sorted. rewrite sort_docs_perm. by apply selected_NoDup. }
  rewrite <-(take_drop n sorted) in Hnd.
  apply NoDup_app in Hnd as (_ & Hdis & _).
  apply (Hdis d1 H1).
  assert (d1 = d2) as ->; [|by eapply subseteq_take].
  apply (to_resource_inj flt st); [done..| | |by injection E].
  - apply subseteq_take in H1. unfold sorted in H1. by rewrite sort_docs_perm in H1.
  - apply subseteq_take, subseteq_drop in H2. unfold sorted in H2.
    by rewrite sort_docs_perm in H2.
Qed.

(** The first record under an identifier is the one that a filter by
    identifier finds. *)
Lemma list_find_id_first (o : oid) body (st1 st2 : store) :
  o ∉ st1.*1 →
  list_find (λ e, selects {[ "_id" := CVal (VOid o) ]} (view e))
    (st1 ++ (o, body) :: st2)
  = Some (length st1, (o, body)).
Proof.
  intros Ho. apply list_find_app_Some. right.
  split; [done|]. split; [by apply list_find_id_none|].
  rewrite Nat.sub_diag. cbn. rewrite decide_True; [done|].
  change (selects {[ "_id" := CVal (VOid o) ]} (view (o, body))).
  unfold selects. rewrite matches_id. by apply bool_decide_eq_true.
Qed.

Lemma mem_find_one_first (o : oid) body (st1 st2 : store) :
  o ∉ st1.*1 →
  find_one {[ "_id" := CVal (VOid o) ]} (st1 ++ (o, body) :: st2)
  = (st1 ++ (o, body) :: st2, Return (Some (view (o, body)))).
Proof.
  intros Ho. cbn. unfold mem_find_one. do 2 f_equal.
  change (head (selected {[ "_id" := CVal (VOid o) ]} (st1 ++ (o, body) :: st2))
          = Some (view (o, body))).
  rewrite selected_app, selected_id_none by done.
  unfold selected. rewrite app_nil_l, fmap_cons, filter_cons_True; [done|].
  unfold selects. rewrite matches_id. by apply bool_decide_eq_true.
Qed.

(** [$set] on the first record under an identifier: the fields of the
    update replace or extend those of the record, every other record
    stays. *)
Lemma mem_update_one_sets (o : oid) body fields (st1 st2 : store) :
  o ∉ st1.*1 →
  fields !! "_id" = None →
  email_key (fields ∪ body) ∉ (email_key ∘ snd) <$> (st1 ++ st2) →
  update_one {[ "_id" := CVal (VOid o) ]} {[ "$set" := fields ]}
    (st1 ++ (o, body) :: st2)
  = (st1 ++ (o, fields ∪ body) :: st2, Return 1).
Proof.
  intros Ho Hid Hfree. cbn. unfold mem_update_one.
  rewrite list_find_id_first by done. cbn [fst snd].
  rewrite lookup_singleton_eq. cbn [default].
  rewrite bool_decide_eq_false_2 by (by intros [? _]).
  unfold id. rewrite delete_middle, bool_decide_eq_false_2 by done.
  f_equal. rewrite <-(Nat.add_0_r (length st1)). by rewrite insert_app_r.
Qed.

Lemma update_data_no_id u : update_data u !! "_id" = None.
Proof.
  unfold update_data. apply map_lookup_filter_None. left.
  unfold UserUpdate.model_dump_exclude_unset.
  destruct (UserUpdate.name u), (UserUpdate.email u), (UserUpdate.age u),
    (UserUpdate.is_active u); cbn [UserUpdate.dump_field]; by simplify_map_eq.
Qed.

(** [update_user] on the reference store, for a record that exists: the
    record takes the fields of [update_data] and is returned as a
    resource. *)
Lemma update_user_mem user_id u body (st1 st2 : store) :
  ObjectId_is_valid user_id = true →
  ObjectId_new user_id ∉ st1.*1 →
  update_data u ≠ ∅ →
  email_key (update_data u ∪ body) ∉ (email_key ∘ snd) <$> (st1 ++ st2) →
  update_user user_id u (st1 ++ (ObjectId_new user_id, body) :: st2)
  = (st1 ++ (ObjectId_new user_id, update_data u ∪ body) :: st2,
     Return (Some (resource (ObjectId_new user_id, update_data u ∪ body)))).
Proof.
  intros Hv Ho Hne Hfree. unfold update_user. rewrite Hv. cbn [negb].
  rewrite bool_decide_eq_false_2 by done.
  unfold apply_update. apply try_return.
  rewrite (bind_return _ _ _ _ _
    (mem_update_one_sets _ body _ st1 st2 Ho (update_data_no_id u) Hfree)).
  cbn [Z.eqb].
  assert (get_user_by_id user_id
            (st1 ++ (ObjectId_new user_id, update_data u ∪ body) :: st2)
          = (st1 ++ (ObjectId_new user_id, update_data u ∪ body) :: st2,
             Return (Some (view (ObjectId_new user_id, update_data u ∪ body)))))
    as Hg.
  { unfold get_user_by_id. rewrite Hv. cbn [negb]. apply try_return.
    by rewrite (bind_return _ _ _ _ _ (mem_find_one_first _ _ st1 st2 Ho)). }
  rewrite (bind_return _ _ _ _ _ Hg). apply user_to_dict_view.
Qed.

Lemma filter_query_age q lo hi is_active :
  filter_query q (Some lo) (Some hi) is_active !! "age"
  = Some (COps {[ "$gte" := VInt lo; "$lte" := VInt hi ]}).
Proof.
  unfold filter_query. cbn [orb].
  rewrite bool_decide_eq_true_2 by done. cbn [orb].
  rewrite (insert_insert_ne _ "$lte" "$gte") by done. rewrite insert_empty.
  destruct is_active; [rewrite lookup_insert_ne by done|]; by rewrite lookup_insert_eq.
Qed.

End mem_facts.

(** * The statements of the specification *)

Section any_collaborator.
Context `{Bson} {S : Type} `{!Collection S}.

(** C1, as the code behaves. For a valid identifier that matches no record
    ([matched_count] is 0) and a non-empty [update_data], [update_user]
    raises the 404 inside its own [try]; the handler of that [try] catches
    it, finds no duplicate-key text in it, and answers with status 500
    "Internal server error" instead of 404. *)
Theorem update_unmatched_answers_500 user_id user_update (s s' : S) :
  ObjectId_is_valid user_id = true →
  update_data user_update ≠ ∅ →
  update_one (by_id user_id) {[ "$set" := update_data user_update ]} s
    = (s', Return 0) →
  update_user user_id user_update s
  = (s', Raise (HTTPException 500 (codes "Internal server error"))).
Proof.
  intros Hv Hne Hu. unfold update_user. rewrite Hv. cbn [negb].
  rewrite bool_decide_eq_false_2 by done.
  unfold apply_update.
  erewrite (try_raise _ _ s s' (HTTPException 404 (codes "User not found"))).
  - apply translate_failure_other, not_a_duplicate_404.
  - by rewrite (bind_return _ _ _ _ _ Hu).
Qed.

(** C2, as the code behaves. When the lookup of [get_user] fails in the
    store, whatever the failure, the helper [get_user_by_id] turns it into
    [None] and [get_user] answers 404 "User not found", not 500. *)
Theorem get_user_failure_answers_404 user_id (s s' : S) (e : exn) :
  ObjectId_is_valid user_id = true →
  find_one (by_id user_id) s = (s', Raise e) →
  get_user user_id s = (s', Raise (HTTPException 404 (codes "User not found"))).
Proof.
  intros Hv Hf. unfold get_user. rewrite Hv. cbn [negb].
  by rewrite (bind_return _ _ _ _ _ (get_user_by_id_failure _ _ _ _ Hv Hf)).
Qed.

(** C5. A request body in which no field is supplied, or every supplied
    field is null, passes the validation of [UserUpdate] (no
    ValidationError), its [update_data] is empty, and [update_user] refuses
    it with status 400 "No data provided for update" without a call to the
    store. This covers the empty body. *)
Theorem empty_update_rejected `{!EmailStr} (p : Payload) :
  nothing_given p = true →
  ∃ user_update,
    UserUpdate.validate p = inr user_update ∧
    update_data user_update = ∅ ∧
    ∀ user_id (s : S), ObjectId_is_valid user_id = true →
      update_user user_id user_update s
      = (s, Raise (HTTPException 400 (codes "No data provided for update"))).
Proof.
  unfold nothing_given. rewrite !andb_true_iff. intros [[[Hn He] Ha] Hi].
  exists {| UserUpdate.name := p_name p; UserUpdate.email := p_email p;
            UserUpdate.age := p_age p; UserUpdate.is_active := p_is_active p |}.
  assert (update_data
            {| UserUpdate.name := p_name p; UserUpdate.email := p_email p;
               UserUpdate.age := p_age p; UserUpdate.is_active := p_is_active p |}
          = ∅) as Hempty.
  { unfold update_data, UserUpdate.model_dump_exclude_unset.
    cbn [UserUpdate.name UserUpdate.email UserUpdate.age UserUpdate.is_active].
    repeat (apply dump_field_without_value; [done|]).
    apply map_filter_empty. }
  split; [|split; [done|]].
  - unfold UserUpdate.validate.
    destruct (p_name p), (p_email p), (p_age p); try done.
  - intros user_id s Hv. unfold update_user. rewrite Hv. cbn [negb].
    by rewrite bool_decide_eq_true_2.
Qed.

(** C8. For a raw identifier that [ObjectId.is_valid] refuses, [get_user],
    [update_user] and [delete_user] each raise status 400 "Invalid user ID"
    and leave the state of the collaborator as it was, whatever the
    collaborator is: no storage call is made. *)
Theorem malformed_identifier_rejected user_id user_update (s : S) :
  ObjectId_is_valid user_id = false →
  get_user user_id s = (s, Raise (HTTPException 400 (codes "Invalid user ID")))
  ∧ update_user user_id user_update s
    = (s, Raise (HTTPException 400 (codes "Invalid user ID")))
  ∧ delete_user user_id s = (s, Raise (HTTPException 400 (codes "Invalid user ID"))).
Proof.
  intros Hv. unfold get_user, update_user, delete_user. by rewrite Hv.
Qed.

(** C9. With the search text given as the empty string, [filter_query] has
    no key for the name: the filter is the one built without a search text,
    and so is the whole request to the store (filter, sort key, skip and
    limit). *)
Theorem empty_search_text_ignored min_age max_age is_active page limit :
  filter_query (Some []) min_age max_age is_active
  = filter_query None min_age max_age is_active
  ∧ filter_query (Some []) min_age max_age is_active !! "name" = None
  ∧ get_users (S:=S) (Some []) min_age max_age is_active page limit
    = get_users None min_age max_age is_active page limit.
Proof.
  split; [done|]. split; [|done].
  unfold filter_query.
  destruct is_active, (bool_decide (min_age ≠ None) || bool_decide (max_age ≠ None));
    by rewrite ?lookup_insert_ne, ?lookup_empty by done.
Qed.

End any_collaborator.

(** C3, as the code behaves. The name made of the letter A and the
    multiplication sign U+00D7 has length 2 and passes the pattern, because
    the range from U+00C0 to U+00FF of the character class holds the signs
    U+00D7 and U+00F7 among the accented letters. [UserCreate] accepts it,
    with no error on [name], although it is not made of letters and spaces
    only. The name "A1" is refused, as the specification says. *)
Theorem multiplication_sign_in_name_accepted :
  UserCreate.name_field (Given [65; 215]) = Some [65; 215]
  ∧ spec_name_rule [65; 215] = false
  ∧ (∀ (E : EmailStr) email age is_active,
       ("name"%string) ∉ UserCreate.errors
         {| p_name := Given [65; 215]; p_email := email; p_age := age;
            p_is_active := is_active |})
  ∧ UserCreate.validate (H:=Sample.at_email)
      {| p_name := Given [65; 215]; p_email := Given (codes "a@b.com");
         p_age := Given 5; p_is_active := Unset |}
    = inr {| UserCreate.name := [65; 215]; UserCreate.email := codes "a@b.com";
             UserCreate.age := 5; UserCreate.is_active := true |}
  ∧ UserCreate.name_field (Given (codes "A1")) = None.
Proof.
  split; [done|]. split; [done|]. split; [|done].
  intros E email age is_active. unfold UserCreate.errors.
  rewrite !elem_of_app, !elem_of_report. cbn.
  intros [[_ Hn]|[[Hn _]|[[Hn _]|[Hn _]]]]; done.
Qed.

Section on_reference_store.
Context `{Bson} `{!Infinite oid} `{!Regex}.
Import MemStore.

(** C4. Two creation payloads with the same email, created one after the
    other in a store with the unique index on [email] that does not hold
    that email yet: the first [create_user] succeeds and returns the new
    resource, the second one raises status 409 "User with this email
    already exists" and leaves the store as it is, whatever the other
    fields are. *)
Theorem same_email_twice (st : store) (u1 u2 : UserCreate.t) :
  UserCreate.email u1 = UserCreate.email u2 →
  VStr (UserCreate.email u1) ∉ (email_key ∘ snd) <$> st →
  ∃ st1 r,
    create_user u1 st = (st1, Return (Some r))
    ∧ r !! "email" = Some (VStr (UserCreate.email u1))
    ∧ create_user u2 st1
      = (st1, Raise (HTTPException 409 (codes "User with this email already exists"))).
Proof.
  intros Heq Hfree.
  set (o := fresh (st.*1)).
  exists (st ++ [(o, UserCreate.model_dump u1)]), (resource (o, UserCreate.model_dump u1)).
  split; [|split].
  - unfold create_user. apply try_return.
    rewrite (bind_return _ _ _ _ _ (mem_insert_one_free u1 st Hfree)).
    rewrite (bind_return _ _ _ _ _
      (mem_find_one_appended o _ st (infinite_is_fresh _))).
    apply user_to_dict_view.
  - unfold resource. rewrite to_resource_field, view_field by done.
    unfold UserCreate.model_dump. by simplify_map_eq.
  - unfold create_user. erewrite try_raise.
    + apply translate_failure_duplicate, duplicate_key_is_recognised.
    + apply bind_raise, mem_insert_one_taken.
      rewrite fmap_app, elem_of_app. right. cbn.
      rewrite model_dump_email, Heq. by left.
Qed.

(** C6. With both bounds given, [filter_query] holds one entry for the age,
    the range [{"$gte": min_age, "$lte": max_age}]; [get_users] then
    returns only records whose age lies in the closed range, in ascending
    order of their name. *)
Theorem age_range_page q lo hi is_active page limit (st : store) :
  filter_query q (Some lo) (Some hi) is_active !! "age"
  = Some (COps {[ "$gte" := VInt lo; "$lte" := VInt hi ]})
  ∧ ∃ rs,
      get_users q (Some lo) (Some hi) is_active page limit st = (st, Return rs)
      ∧ (∀ r, r ∈ rs → ∃ d a, r = Some d ∧ d !! "age" = Some (VInt a) ∧ lo ≤ a ≤ hi)
      ∧ StronglySorted by_name rs.
Proof.
  split; [apply filter_query_age|].
  eexists. split; [apply get_users_mem|]. split.
  - intros r (d & -> & Hd)%list_elem_of_fmap.
    apply sorted_page_selected in Hd.
    destruct (selected_age_range _ st d lo hi (filter_query_age _ _ _ _) Hd)
      as (a & Ha & Hr).
    exists (to_resource d), a. split; [done|]. split; [|done].
    by rewrite to_resource_field.
  - apply (StronglySorted_fmap _ (doc_le "name")).
    + intros x y Hxy. unfold by_name. cbn.
      by rewrite !to_resource_field.
    + apply StronglySorted_take, StronglySorted_drop, sort_docs_sorted.
Qed.

(** C7. Whatever the store is, [get_users] asks it for the page that skips
    [(page - 1) * limit] records and takes [limit]. Over a reference store
    in which 15 records match, page 2 with limit 10 holds exactly 5
    records, and none of them is among the 10 records of page 1; the
    identifiers of the store are pairwise distinct and print to distinct
    texts. *)
Theorem second_page_of_fifteen q min_age max_age is_active (st : store) :
  (∀ S (C : Collection S) page limit,
     get_users (S:=S) q min_age max_age is_active page limit
     = (find_page (filter_query q min_age max_age is_active) "name" 1
          ((page - 1) * limit) limit limit
        ≫= for_each (λ user, user_to_dict (Some user))))
  ∧ (Inj (=) (=) oid_str →
     wf st →
     length (selected (filter_query q min_age max_age is_active) st) = 15%nat →
     ∃ page1 page2,
       get_users q min_age max_age is_active 1 10 st = (st, Return page1)
       ∧ get_users q min_age max_age is_active 2 10 st = (st, Return page2)
       ∧ length page1 = 10%nat
       ∧ length page2 = 5%nat
       ∧ ∀ r, r ∈ page1 → r ∉ page2).
Proof.
  split; [done|]. intros Hinj Hwf Hlen.
  eexists _, _. split; [apply get_users_mem|]. split; [apply get_users_mem|].
  change (Z.to_nat (skip_of 1 10)) with 0%nat.
  change (Z.to_nat (skip_of 2 10)) with 10%nat.
  change (Z.to_nat 10) with 10%nat. rewrite drop_0.
  assert (length (sort_docs "name" 1
            (selected (filter_query q min_age max_age is_active) st)) = 15%nat) as Hs.
  { by rewrite sort_docs_perm. }
  split; [|split].
  - rewrite length_fmap, length_take. lia.
  - rewrite length_fmap, length_take, length_drop. lia.
  - intros r. by apply pages_disjoint.
Qed.

(** C10. A value that was sent stays in [update_data] even when it is falsy:
    [is_active = False] and [age = 0] are kept. An update that sends only
    [is_active = False] (or only [age = 0]) has exactly that one key in
    [update_data], is not refused as empty, and asks the store, whatever
    the store is, to set exactly that field. On the reference store the
    record then holds that value under that field, its other fields and
    the other records are as before, and the updated resource is
    returned. *)
Theorem falsy_values_kept :
  (∀ u, UserUpdate.is_active u = Given false →
     update_data u !! "is_active" = Some (VBool false))
  ∧ (∀ u, UserUpdate.age u = Given 0 → update_data u !! "age" = Some (VInt 0))
  ∧ update_data (Sample.only_is_active false) = {[ "is_active" := VBool false ]}
  ∧ update_data (Sample.only_age 0) = {[ "age" := VInt 0 ]}
  ∧ (∀ S (C : Collection S) user_id (s : S),
       ObjectId_is_valid user_id = true →
       update_user user_id (Sample.only_is_active false) s
         = apply_update user_id {[ "is_active" := VBool false ]} s
       ∧ update_user user_id (Sample.only_age 0) s
         = apply_update user_id {[ "age" := VInt 0 ]} s)
  ∧ (∀ user_id body (st1 st2 : store),
       ObjectId_is_valid user_id = true →
       ObjectId_new user_id ∉ st1.*1 →
       email_key body ∉ (email_key ∘ snd) <$> (st1 ++ st2) →
       update_user user_id (Sample.only_is_active false)
           (st1 ++ (ObjectId_new user_id, body) :: st2)
         = (st1 ++ (ObjectId_new user_id, <["is_active" := VBool false]> body) :: st2,
            Return (Some (resource
              (ObjectId_new user_id, <["is_active" := VBool false]> body))))
       ∧ update_user user_id (Sample.only_age 0)
           (st1 ++ (ObjectId_new user_id, body) :: st2)
         = (st1 ++ (ObjectId_new user_id, <["age" := VInt 0]> body) :: st2,
            Return (Some (resource (ObjectId_new user_id, <["age" := VInt 0]> body))))).
Proof.
  split; [intros u; apply update_data_is_active|].
  split; [intros u; apply update_data_age|].
  split; [apply update_data_only_is_active|].
  split; [apply update_data_only_age|].
  split.
  - intros S C user_id s Hv.
    split; (apply update_user_one_field; [done|]);
      [apply update_data_only_is_active|apply update_data_only_age].
  - intros user_id body st1 st2 Hv Ho Hfree.
    rewrite !insert_union_singleton_l.
    rewrite <-update_data_only_is_active, <-update_data_only_age.
    assert (∀ k v, k ≠ "email"%string →
              email_key ({[ k := v ]} ∪ body) ∉ (email_key ∘ snd) <$> (st1 ++ st2))
      as Hkeep.
    { intros k v Hk. rewrite <-insert_union_singleton_l.
      unfold email_key at 1. by rewrite lookup_insert_ne. }
    split; apply update_user_mem; [exact Hv|exact Ho| | |exact Hv|exact Ho| |].
    + rewrite update_data_only_is_active. apply singleton_not_empty.
    + rewrite update_data_only_is_active. by apply Hkeep.
    + rewrite update_data_only_age. apply singleton_not_empty.
    + rewrite update_data_only_age. by apply Hkeep.
Qed.

End on_reference_store.

(** * Further properties of the validation layer *)

Section validation_facts.
Context `{!EmailStr}.

(** [UserCreate] and [UserUpdate] accept the same names. The first checks
    the length and then the pattern, the second the pattern and then the
    length; a name that is sent passes one exactly when it passes the
    other, and it comes back unchanged. *)
Theorem name_rule_shared (v : pystr) :
  (UserUpdate.name_field (Given v) = Some (Given v)
   ↔ UserCreate.name_field (Given v) = Some v)
  ∧ (UserUpdate.name_field (Given v) = None ↔ UserCreate.name_field (Given v) = None)
  ∧ (∀ w, UserCreate.name_field (Given v) = Some w → w = v)
  ∧ (∀ x, UserUpdate.name_field (Given v) = Some x → x = Given v).
Proof.
  unfold UserUpdate.name_field, UserUpdate.validate_name, UserCreate.name_field,
    UserCreate.name_must_contain_letters.
  destruct (re_match_name v), (length_2_80 v); cbn;
    repeat split; try done; try congruence.
Qed.

(** A creation body that passes [UserCreate] gives a model whose fields are
    the ones that were sent and satisfy the constraints: the name has
    between 2 and 80 code points and matches the pattern, the email is the
    normal form of the one sent, the age is not negative, and [is_active]
    is the value sent or [True] when it was left out. *)
Theorem create_model_sound (p : Payload) (u : UserCreate.t) :
  UserCreate.validate p = inr u →
  p_name p = Given (UserCreate.name u)
  ∧ 2 ≤ len (UserCreate.name u) ≤ 80
  ∧ re_match_name (UserCreate.name u) = true
  ∧ (∃ e, p_email p = Given e ∧ validate_email e = Some (UserCreate.email u))
  ∧ p_age p = Given (UserCreate.age u)
  ∧ 0 ≤ UserCreate.age u
  ∧ (p_is_active p = Given (UserCreate.is_active u)
     ∨ p_is_active p = Unset ∧ UserCreate.is_active u = true).
Proof.
  unfold UserCreate.validate.
  destruct (UserCreate.name_field (p_name p)) as [n|] eqn:En; [|done].
  destruct (UserCreate.email_field (p_email p)) as [e|] eqn:Ee; [|done].
  destruct (UserCreate.age_field (p_age p)) as [a|] eqn:Ea; [|done].
  destruct (UserCreate.is_active_field (p_is_active p)) as [b|] eqn:Eb; [|done].
  intros [= <-]. cbn.
  unfold UserCreate.name_field, UserCreate.name_must_contain_letters, length_2_80 in En.
  unfold UserCreate.email_field in Ee. unfold UserCreate.age_field in Ea.
  unfold UserCreate.is_active_field in Eb.
  destruct (p_name p) as [| |v]; try done.
  destruct (2 <=? len v) eqn:E1, (len v <=? 80) eqn:E2; try done.
  destruct (re_match_name v) eqn:E3; try done. cbn in En. injection En as <-.
  destruct (p_email p) as [| |e0]; try done.
  destruct (p_age p) as [| |a0]; try done.
  destruct (0 <=? a0) eqn:E4; try done. injection Ea as <-.
  split; [done|]. split; [lia|]. split; [done|]. split; [by exists e0|].
  split; [done|]. split; [lia|].
  destruct (p_is_active p); try done; injection Eb as <-; auto.
Qed.


(** An update body that passes [UserUpdate] gives a model with the same
    fields left out, the same fields null and the same fields sent; a name
    that was sent has between 2 and 80 code points and matches the pattern,
    an age that was sent is not negative, an email that was sent is replaced
    by its normal form. *)
Theorem update_model_sound (p : Payload) (u : UserUpdate.t) :
  UserUpdate.validate p = inr u →
  UserUpdate.name u = p_name p
  ∧ UserUpdate.age u = p_age p
  ∧ UserUpdate.is_active u = p_is_active p
  ∧ without_value (UserUpdate.email u) = without_value (p_email p)
  ∧ (UserUpdate.email u = Unset ↔ p_email p = Unset)
  ∧ (∀ e, p_email p = Given e →
       ∃ e', validate_email e = Some e' ∧ UserUpdate.email u = Given e')
  ∧ (∀ v, UserUpdate.name u = Given v → 2 ≤ len v ≤ 80 ∧ re_match_name v = true)
  ∧ (∀ n, UserUpdate.age u = Given n → 0 ≤ n).
Proof.
  unfold UserUpdate.validate.
  destruct (UserUpdate.name_field (p_name p)) as [n|] eqn:En; [|done].
  destruct (UserUpdate.email_field (p_email p)) as [e|] eqn:Ee; [|done].
  destruct (UserUpdate.age_field (p_age p)) as [a|] eqn:Ea; [|done].
  intros [= <-]. cbn.
  assert (n = p_name p ∧
          ∀ v, n = Given v → 2 ≤ len v ≤ 80 ∧ re_match_name v = true) as [-> Hn].
  { unfold UserUpdate.name_field, UserUpdate.validate_name, length_2_80 in En.
    destruct (p_name p) as [| |v]; cbn in En; try (by injection En as <-).
    destruct (re_match_name v) eqn:E3; cbn in En; [|done].
    destruct (2 <=? len v) eqn:E1, (len v <=? 80) eqn:E2; cbn in En; try done.
    injection En as <-. split; [done|]. intros ? [= <-]. split; [lia|done]. }
  assert (a = p_age p ∧ ∀ m, a = Given m → 0 ≤ m) as [-> Ha].
  { unfold UserUpdate.age_field in Ea.
    destruct (p_age p) as [| |m]; try (by injection Ea as <-).
    destruct (Z.leb_spec 0 m); [|done]. injection Ea as <-.
    split; [done|]. by intros ? [= <-]. }
  unfold UserUpdate.email_field in Ee.
  split; [done|]. split; [done|]. split; [done|].
  destruct (p_email p) as [| |e0]; cbn in Ee.
  - injection Ee as <-.
    split; [done|]. split; [done|]. split; [done|]. split; [exact Hn|exact Ha].
  - injection Ee as <-.
    split; [done|]. split; [by split|]. split; [done|]. split; [exact Hn|exact Ha].
  - destruct (validate_email e0) as [e'|] eqn:Ev; [|done]. cbn in Ee.
    injection Ee as <-.
    split; [done|]. split; [by split|]. split; [|split; [exact Hn|exact Ha]].
    intros ? [= <-]. by exists e'.
Qed.


End validation_facts.

(** * Further properties of the handlers, over any collaborator *)

Section handler_facts.
Context `{Bson} {S : Type} `{!Collection S}.

Lemma dump_field_lookup_ne {A} (k k' : string) (inj : A → value) x (d : document) :
  k ≠ k' → UserUpdate.dump_field k' inj x d !! k = d !! k.
Proof. intros Hk. destruct x; cbn; [done| |]; by rewrite lookup_insert_ne. Qed.

Lemma dump_field_lookup_eq {A} (k : string) (inj : A → value) x (d : document) :
  d !! k = None →
  UserUpdate.dump_field k inj x d !! k
  = match x with Unset => None | Null => Some VNone | Given a => Some (inj a) end.
Proof. intros Hk. destruct x; cbn; [done| |]; by rewrite lookup_insert_eq. Qed.

Lemma sent_value {A} (inj : A → value) (x : supplied A) (v : value) :
  (∀ a, inj a ≠ VNone) →
  (match x with Unset => None | Null => Some VNone | Given a => Some (inj a) end
   = Some v ∧ v ≠ VNone)
  ↔ ∃ a, x = Given a ∧ v = inj a.
Proof.
  intros Hinj. destruct x as [| |a]; split.
  - by intros [? _].
  - by intros (? & ? & _).
  - intros [[= <-] Hv]. by destruct Hv.
  - by intros (? & ? & _).
  - intros [[= <-] _]. eauto.
  - intros (? & [= <-] & ->). split; [done|apply Hinj].
Qed.

Lemma model_dump_lookup_other u (k : string) :
  k ≠ "name"%string → k ≠ "email"%string → k ≠ "age"%string →
  k ≠ "is_active"%string →
  UserUpdate.model_dump_exclude_unset u !! k = None.
Proof.
  intros. unfold UserUpdate.model_dump_exclude_unset.
  by rewrite !dump_field_lookup_ne, lookup_empty.
Qed.

(** [update_data] holds exactly the fields that were sent with a value, each
    under its name and with the value sent: a field left out or sent as
    null has no key, no key holds [None], and there is no other key (in
    particular no identifier). It is empty exactly when no field carries a
    value. *)
Theorem update_data_exact (u : UserUpdate.t) :
  (∀ k v, update_data u !! k = Some v ↔
     (k = "name"%string ∧ ∃ s, UserUpdate.name u = Given s ∧ v = VStr s)
     ∨ (k = "email"%string ∧ ∃ s, UserUpdate.email u = Given s ∧ v = VStr s)
     ∨ (k = "age"%string ∧ ∃ n, UserUpdate.age u = Given n ∧ v = VInt n)
     ∨ (k = "is_active"%string ∧ ∃ b, UserUpdate.is_active u = Given b ∧ v = VBool b))
  ∧ (∀ k, update_data u !! k ≠ Some VNone)
  ∧ update_data u !! "_id" = None
  ∧ update_data u !! "id" = None
  ∧ (update_data u = ∅ ↔
       without_value (UserUpdate.name u) && without_value (UserUpdate.email u)
       && without_value (UserUpdate.age u) && without_value (UserUpdate.is_active u)
       = true).
Proof.
  assert (∀ k v, update_data u !! k = Some v ↔
     (k = "name"%string ∧ ∃ s, UserUpdate.name u = Given s ∧ v = VStr s)
     ∨ (k = "email"%string ∧ ∃ s, UserUpdate.email u = Given s ∧ v = VStr s)
     ∨ (k = "age"%string ∧ ∃ n, UserUpdate.age u = Given n ∧ v = VInt n)
     ∨ (k = "is_active"%string ∧ ∃ b, UserUpdate.is_active u = Given b ∧ v = VBool b))
    as Hex.
  { intros k v. unfold update_data. rewrite map_lookup_filter_Some. cbn.
    destruct (decide (k = "name"%string)) as [->|Hn].
    { unfold UserUpdate.model_dump_exclude_unset.
      rewrite dump_field_lookup_eq
        by (by rewrite !dump_field_lookup_ne, lookup_empty).
      rewrite sent_value by done. split; [auto|].
      intros [[_ ?]|[[? _]|[[? _]|[? _]]]]; done. }
    destruct (decide (k = "email"%string)) as [->|He].
    { unfold UserUpdate.model_dump_exclude_unset.
      rewrite dump_field_lookup_ne by done.
      rewrite dump_field_lookup_eq
        by (by rewrite !dump_field_lookup_ne, lookup_empty).
      rewrite sent_value by done. split; [auto|].
      intros [[? _]|[[_ ?]|[[? _]|[? _]]]]; done. }
    destruct (decide (k = "age"%string)) as [->|Ha].
    { unfold UserUpdate.model_dump_exclude_unset.
      rewrite !dump_field_lookup_ne by done.
      rewrite dump_field_lookup_eq
        by (by rewrite !dump_field_lookup_ne, lookup_empty).
      rewrite sent_value by done. split; [auto|].
      intros [[? _]|[[? _]|[[_ ?]|[? _]]]]; done. }
    destruct (decide (k = "is_active"%string)) as [->|Hi].
    { unfold UserUpdate.model_dump_exclude_unset.
      rewrite !dump_field_lookup_ne by done.
      rewrite dump_field_lookup_eq by apply lookup_empty.
      rewrite sent_value by done. split; [auto 6|].
      intros [[? _]|[[? _]|[[? _]|[_ ?]]]]; done. }
    rewrite model_dump_lookup_other by done. split; [by intros [? _]|].
    intros [[? _]|[[? _]|[[? _]|[? _]]]]; done. }
  split; [exact Hex|]. split; [|split; [|split]].
  - intros k Hk. apply Hex in Hk.
    destruct Hk as [[_ (? & _ & ?)]|[[_ (? & _ & ?)]|[[_ (? & _ & ?)]|[_ (? & _ & ?)]]]];
      done.
  - destruct (update_data u !! "_id") as [v|] eqn:E; [|done].
    apply Hex in E. destruct E as [[? _]|[[? _]|[[? _]|[? _]]]]; done.
  - destruct (update_data u !! "id") as [v|] eqn:E; [|done].
    apply Hex in E. destruct E as [[? _]|[[? _]|[[? _]|[? _]]]]; done.
  - rewrite map_empty. split.
    + intros Hnone.
      destruct (UserUpdate.name u) as [| |s] eqn:En; cbn;
        [| |specialize (Hnone "name"%string);
            rewrite (proj2 (Hex "name"%string (VStr s))) in Hnone; [done|left; eauto]];
      (destruct (UserUpdate.email u) as [| |s] eqn:Ee; cbn;
        [| |specialize (Hnone "email"%string);
            rewrite (proj2 (Hex "email"%string (VStr s))) in Hnone;
            [done|right; left; eauto]]);
      (destruct (UserUpdate.age u) as [| |n] eqn:Ea; cbn;
        [| |specialize (Hnone "age"%string);
            rewrite (proj2 (Hex "age"%string (VInt n))) in Hnone;
            [done|right; right; left; eauto]]);
      (destruct (UserUpdate.is_active u) as [| |b] eqn:Ei; cbn;
        [done|done|specialize (Hnone "is_active"%string);
            rewrite (proj2 (Hex "is_active"%string (VBool b))) in Hnone;
            [done|right; right; right; eauto]]).
    + rewrite !andb_true_iff. intros [[[Hn He] Ha] Hi] k.
      destruct (update_data u !! k) as [v|] eqn:E; [|done].
      apply Hex in E.
      destruct E as [[_ (? & E & _)]|[[_ (? & E & _)]|[[_ (? & E & _)]|[_ (? & E & _)]]]];
        rewrite E in *; done.
Qed.

(** The handler of [create_user] and [update_user] lets nothing else out
    than a result, status 409 or status 500, whatever the protected code
    does. *)
Lemma translated_outcomes {A} (m : M S A) (s : S) :
  ∃ s',
    (∃ a, try_except m translate_failure s = (s', Return a))
    ∨ try_except m translate_failure s
      = (s', Raise (HTTPException 409 (codes "User with this email already exists")))
    ∨ try_except m translate_failure s
      = (s', Raise (HTTPException 500 (codes "Internal server error"))).
Proof.
  unfold try_except. destruct (m s) as [s' [a|e]]; exists s'; [eauto|].
  unfold translate_failure.
  destruct (contains (codes "duplicate key error") (lower (exn_str e))); auto.
Qed.


(** With a valid identifier, [update_user] answers status 400 exactly when
    no field of the update carries a value; the state of the collaborator
    is then untouched. *)
Theorem update_user_400_iff user_id (user_update : UserUpdate.t) (s : S) :
  ObjectId_is_valid user_id = true →
  ((∃ s' detail, update_user user_id user_update s
                 = (s', Raise (HTTPException 400 detail)))
   ↔ update_data user_update = ∅)
  ∧ (update_data user_update = ∅ →
     update_user user_id user_update s
     = (s, Raise (HTTPException 400 (codes "No data provided for update")))).
Proof.
  intros Hv. unfold update_user. rewrite Hv. cbn [negb].
  case_bool_decide as Hd.
  - split; [|done]. split; [done|]. intros _. eauto.
  - split; [|done]. split; [|done]. intros (s' & detail & E).
    unfold apply_update in E.
    destruct (translated_outcomes
      (matched_count ← update_one (by_id user_id) {[ "$set" := update_data user_update ]};
       if matched_count =? 0 then raise (HTTPException 404 (codes "User not found"))
       else updated_user ← get_user_by_id user_id; user_to_dict updated_user) s)
      as (s'' & [[a Ha]|[Ha|Ha]]); rewrite Ha in E; congruence.
Qed.

(** The helper [get_user_by_id] never raises: whatever the collaborator
    does, it returns a document or [None]. For an identifier that is not
    valid it returns [None] without a call to the store. *)
Theorem get_user_by_id_never_raises user_id (s : S) :
  (∃ s' r, get_user_by_id user_id s = (s', Return r))
  ∧ (ObjectId_is_valid user_id = false → get_user_by_id user_id s = (s, Return None)).
Proof.
  unfold get_user_by_id. split.
  - unfold try_except.
    destruct (ObjectId_is_valid user_id); cbn [negb]; [|by eexists _, _].
    unfold mbind, M_bind, bind.
    destruct (find_one (by_id user_id) s) as [s' [r|e]]; by eexists _, _.
  - by intros ->.
Qed.

(** [user_to_dict] renames the identifier and keeps the rest: for a document
    with an ["_id"], the result has no ["_id"], has the text of the
    identifier under ["id"], and every other field as it was. [None] and
    the empty dict give [None]; a dict with fields but without ["_id"]
    raises [KeyError]. The collaborator is never called. *)
Theorem user_to_dict_shape (d : document) (s : S) :
  (∀ v, d !! "_id" = Some v →
     ∃ r, user_to_dict (Some d) s = (s, Return (Some r))
          ∧ r !! "_id" = None
          ∧ r !! "id" = Some (VStr (value_str v))
          ∧ ∀ k, k ≠ "_id"%string → k ≠ "id"%string → r !! k = d !! k)
  ∧ user_to_dict None s = (s, Return None)
  ∧ user_to_dict (Some ∅) s = (s, Return None)
  ∧ (d ≠ ∅ → d !! "_id" = None →
     user_to_dict (Some d) s = (s, Raise (PyError "KeyError" (codes "'_id'")))).
Proof.
  split; [|split; [done|split]].
  - intros v Hv. unfold user_to_dict, truthy.
    rewrite bool_decide_eq_true_2, Hv.
    + eexists. split; [done|]. split; [apply lookup_delete_eq|]. split.
      * by rewrite lookup_delete_ne, lookup_insert_eq.
      * intros k H1 H2. by rewrite lookup_delete_ne, lookup_insert_ne.
    + intros ->. by rewrite lookup_empty in Hv.
  - unfold user_to_dict, truthy. by rewrite bool_decide_eq_false_2 by (by intros []).
  - intros Hd Hid. unfold user_to_dict, truthy.
    by rewrite bool_decide_eq_true_2, Hid.
Qed.

End handler_facts.

(** * Further properties of the handlers, on the reference store *)

Section store_facts.
Context `{Bson} `{!Infinite oid} `{!Regex}.
Import MemStore.

Lemma mem_find_one_none (o : oid) (st : store) :
  o ∉ st.*1 → find_one {[ "_id" := CVal (VOid o) ]} st = (st, Return None).
Proof.
  intros Ho. cbn. unfold mem_find_one. do 2 f_equal.
  change (head (selected {[ "_id" := CVal (VOid o) ]} st) = None).
  by rewrite selected_id_none.
Qed.

Lemma get_user_by_id_first user_id body (st1 st2 : store) :
  ObjectId_is_valid user_id = true →
  ObjectId_new user_id ∉ st1.*1 →
  get_user_by_id user_id (st1 ++ (ObjectId_new user_id, body) :: st2)
  = (st1 ++ (ObjectId_new user_id, body) :: st2,
     Return (Some (view (ObjectId_new user_id, body)))).
Proof.
  intros Hv Ho. unfold get_user_by_id. rewrite Hv. cbn [negb]. apply try_return.
  by rewrite (bind_return _ _ _ _ _ (mem_find_one_first _ _ st1 st2 Ho)).
Qed.

Lemma get_user_by_id_none user_id (st : store) :
  ObjectId_is_valid user_id = true →
  ObjectId_new user_id ∉ st.*1 →
  get_user_by_id user_id st = (st, Return None).
Proof.
  intros Hv Ho. unfold get_user_by_id. rewrite Hv. cbn [negb]. apply try_return.
  by rewrite (bind_return _ _ _ _ _ (mem_find_one_none _ st Ho)).
Qed.

Lemma view_truthy e : truthy (Some (view e)) = true.
Proof.
  unfold truthy. apply bool_decide_eq_true. intros E.
  pose proof (view_id e) as Hv. rewrite E in Hv. by rewrite lookup_empty in Hv.
Qed.

Lemma mem_delete_one_first (o : oid) body (st1 st2 : store) :
  o ∉ st1.*1 →
  delete_one {[ "_id" := CVal (VOid o) ]} (st1 ++ (o, body) :: st2)
  = (st1 ++ st2, Return 1).
Proof.
  intros Ho. cbn. unfold mem_delete_one.
  rewrite list_find_id_first by done. by rewrite delete_middle.
Qed.

Lemma model_dump_field u :
  UserCreate.model_dump u !! "name" = Some (VStr (UserCreate.name u))
  ∧ UserCreate.model_dump u !! "email" = Some (VStr (UserCreate.email u))
  ∧ UserCreate.model_dump u !! "age" = Some (VInt (UserCreate.age u))
  ∧ UserCreate.model_dump u !! "is_active" = Some (VBool (UserCreate.is_active u)).
Proof. unfold UserCreate.model_dump. repeat split; by simplify_map_eq. Qed.

Lemma model_dump_other u (k : string) :
  k ≠ "name"%string → k ≠ "email"%string → k ≠ "age"%string →
  k ≠ "is_active"%string → UserCreate.model_dump u !! k = None.
Proof.
  intros. unfold UserCreate.model_dump.
  by rewrite !lookup_insert_ne, lookup_empty.
Qed.

(** [create_user] on the reference store. When no record holds the email,
    the store gains exactly one record, at its end and under a new
    identifier, and the resource returned holds the four fields of the
    payload unchanged, the text of the new identifier under ["id"], and
    nothing else. When a record holds the email, the answer is status 409
    and the store is as before. *)
Theorem create_user_on_store (user : UserCreate.t) (st : store) :
  (VStr (UserCreate.email user) ∉ (email_key ∘ snd) <$> st →
   ∃ o r,
     create_user user st = (st ++ [(o, UserCreate.model_dump user)], Return (Some r))
     ∧ (o ∉ st.*1)
     ∧ r !! "id" = Some (VStr (oid_str o))
     ∧ r !! "name" = Some (VStr (UserCreate.name user))
     ∧ r !! "email" = Some (VStr (UserCreate.email user))
     ∧ r !! "age" = Some (VInt (UserCreate.age user))
     ∧ r !! "is_active" = Some (VBool (UserCreate.is_active user))
     ∧ ∀ k, is_Some (r !! k) →
         k ∈ ["id"; "name"; "email"; "age"; "is_active"]%string)
  ∧ (VStr (UserCreate.email user) ∈ (email_key ∘ snd) <$> st →
     create_user user st
     = (st, Raise (HTTPException 409 (codes "User with this email already exists")))).
Proof.
  split.
  - intros Hfree. set (o := fresh (st.*1)).
    exists o, (resource (o, UserCreate.model_dump user)).
    destruct (model_dump_field user) as (Hn & He & Ha & Hi).
    split; [|split; [apply infinite_is_fresh|split; [apply resource_id|]]].
    { unfold create_user. apply try_return.
      rewrite (bind_return _ _ _ _ _ (mem_insert_one_free user st Hfree)).
      rewrite (bind_return _ _ _ _ _
        (mem_find_one_appended o _ st (infinite_is_fresh _))).
      apply user_to_dict_view. }
    unfold resource.
    rewrite !to_resource_field, !view_field by done.
    split; [done|]. split; [done|]. split; [done|]. split; [done|].
    intros k [v Hk].
    destruct (decide (k = "id"%string)) as [->|H1]; [rewrite !elem_of_cons; auto|].
    destruct (decide (k = "_id"%string)) as [->|H2].
    { unfold to_resource in Hk. by rewrite lookup_delete_eq in Hk. }
    rewrite to_resource_field, view_field in Hk by done.
    destruct (decide (k = "name"%string)) as [->|?]; [rewrite !elem_of_cons; auto|].
    destruct (decide (k = "email"%string)) as [->|?]; [rewrite !elem_of_cons; auto|].
    destruct (decide (k = "age"%string)) as [->|?]; [rewrite !elem_of_cons; auto 6|].
    destruct (decide (k = "is_active"%string)) as [->|?];
      [rewrite !elem_of_cons; auto 7|].
    cbn [snd] in Hk. by rewrite model_dump_other in Hk.
  - intros Htaken. unfold create_user.
    erewrite (try_raise _ _ st st DuplicateKeyError).
    + apply translate_failure_duplicate, duplicate_key_is_recognised.
    + by apply bind_raise, mem_insert_one_taken.
Qed.

Lemma get_user_first user_id body (st1 st2 : store) :
  ObjectId_is_valid user_id = true →
  ObjectId_new user_id ∉ st1.*1 →
  get_user user_id (st1 ++ (ObjectId_new user_id, body) :: st2)
  = (st1 ++ (ObjectId_new user_id, body) :: st2,
     Return (Some (resource (ObjectId_new user_id, body)))).
Proof.
  intros Hv Ho. unfold get_user. rewrite Hv. cbn [negb].
  rewrite (bind_return _ _ _ _ _ (get_user_by_id_first _ body st1 st2 Hv Ho)).
  rewrite view_truthy. cbn [negb]. apply user_to_dict_view.
Qed.

Lemma get_user_missing user_id (st : store) :
  ObjectId_is_valid user_id = true →
  ObjectId_new user_id ∉ st.*1 →
  get_user user_id st = (st, Raise (HTTPException 404 (codes "User not found"))).
Proof.
  intros Hv Ho. unfold get_user. rewrite Hv. cbn [negb].
  by rewrite (bind_return _ _ _ _ _ (get_user_by_id_none _ st Hv Ho)).
Qed.

Lemma update_data_no_api_id u : update_data u !! "id" = None.
Proof.
  unfold update_data. apply map_lookup_filter_None. left.
  by apply model_dump_lookup_other.
Qed.

(** [get_user] on the reference store: for a valid identifier, the resource
    of the record under it when there is one, status 404 when there is
    none; the store is as before. *)
Theorem get_user_on_store user_id :
  ObjectId_is_valid user_id = true →
  (∀ body (st1 st2 : store), ObjectId_new user_id ∉ st1.*1 →
     get_user user_id (st1 ++ (ObjectId_new user_id, body) :: st2)
     = (st1 ++ (ObjectId_new user_id, body) :: st2,
        Return (Some (resource (ObjectId_new user_id, body)))))
  ∧ (∀ st : store, ObjectId_new user_id ∉ st.*1 →
     get_user user_id st = (st, Raise (HTTPException 404 (codes "User not found")))).
Proof.
  intros Hv. split.
  - intros body st1 st2 Ho. by apply get_user_first.
  - intros st Ho. by apply get_user_missing.
Qed.

(** [delete_user] on the reference store: a record that exists is removed,
    every other record stays in place, and the answer is empty. After
    that the identifier is gone: a second [delete_user] and a [get_user]
    both answer 404 and leave the store as it is. *)
Theorem delete_user_on_store user_id body (st1 st2 : store) :
  ObjectId_is_valid user_id = true →
  ObjectId_new user_id ∉ st1.*1 →
  ObjectId_new user_id ∉ st2.*1 →
  delete_user user_id (st1 ++ (ObjectId_new user_id, body) :: st2)
  = (st1 ++ st2, Return ())
  ∧ delete_user user_id (st1 ++ st2)
    = (st1 ++ st2, Raise (HTTPException 404 (codes "User not found")))
  ∧ get_user user_id (st1 ++ st2)
    = (st1 ++ st2, Raise (HTTPException 404 (codes "User not found"))).
Proof.
  intros Hv H1 H2.
  assert (ObjectId_new user_id ∉ (st1 ++ st2).*1) as Hgone.
  { rewrite fmap_app, elem_of_app. by intros [?|?]. }
  split; [|split].
  - unfold delete_user. rewrite Hv. cbn [negb].
    by rewrite (bind_return _ _ _ _ _ (mem_delete_one_first _ body st1 st2 H1)).
  - unfold delete_user. rewrite Hv. cbn [negb].
    by rewrite (bind_return _ _ _ _ _ (mem_delete_one_unmatched _ _ Hgone)).
  - by apply get_user_missing.
Qed.

(** [update_user] followed by [get_user] on the reference store: the update
    of a record that exists returns the resource with the fields of
    [update_data] written over the old ones, leaves every field that was
    not sent and every other record as before, and a [get_user] under the
    same identifier then returns that same resource. *)
Theorem update_then_get user_id (u : UserUpdate.t) body (st1 st2 : store) :
  ObjectId_is_valid user_id = true →
  ObjectId_new user_id ∉ st1.*1 →
  update_data u ≠ ∅ →
  email_key (update_data u ∪ body) ∉ (email_key ∘ snd) <$> (st1 ++ st2) →
  ∃ r,
    update_user user_id u (st1 ++ (ObjectId_new user_id, body) :: st2)
    = (st1 ++ (ObjectId_new user_id, update_data u ∪ body) :: st2, Return (Some r))
    ∧ get_user user_id (st1 ++ (ObjectId_new user_id, update_data u ∪ body) :: st2)
      = (st1 ++ (ObjectId_new user_id, update_data u ∪ body) :: st2, Return (Some r))
    ∧ r !! "id" = Some (VStr (oid_str (ObjectId_new user_id)))
    ∧ (∀ k v, update_data u !! k = Some v → r !! k = Some v)
    ∧ (∀ k, k ≠ "id"%string → k ≠ "_id"%string → update_data u !! k = None →
         r !! k = body !! k).
Proof.
  intros Hv Ho Hne Hfree.
  exists (resource (ObjectId_new user_id, update_data u ∪ body)).
  split; [by apply update_user_mem|]. split; [by apply get_user_first|].
  split; [apply resource_id|].
  pose proof (update_data_no_id u) as Hid.
  pose proof (update_data_no_api_id u) as Hid'.
  split.
  - intros k v Hk. unfold resource.
    rewrite to_resource_field, view_field by congruence.
    by apply lookup_union_Some_l.
  - intros k H1 H2 Hk. unfold resource.
    rewrite to_resource_field, view_field by done.
    by apply lookup_union_r.
Qed.

(** [update_user] on the reference store, when the update would give the
    record the email of another record: the answer is status 409 and no
    record changes. *)
Theorem update_user_conflict user_id (u : UserUpdate.t) body (st1 st2 : store) :
  ObjectId_is_valid user_id = true →
  ObjectId_new user_id ∉ st1.*1 →
  update_data u ≠ ∅ →
  email_key (update_data u ∪ body) ∈ (email_key ∘ snd) <$> (st1 ++ st2) →
  update_user user_id u (st1 ++ (ObjectId_new user_id, body) :: st2)
  = (st1 ++ (ObjectId_new user_id, body) :: st2,
     Raise (HTTPException 409 (codes "User with this email already exists"))).
Proof.
  intros Hv Ho Hne Htaken. unfold update_user. rewrite Hv. cbn [negb].
  rewrite bool_decide_eq_false_2 by done. unfold apply_update.
  erewrite (try_raise _ _ _ _ DuplicateKeyError).
  - apply translate_failure_duplicate, duplicate_key_is_recognised.
  - apply bind_raise. cbn. unfold mem_update_one, by_id.
    rewrite list_find_id_first by done. cbn [fst snd].
    rewrite lookup_singleton_eq. cbn [default]. unfold id.
    pose proof (update_data_no_id u) as Hid.
    rewrite bool_decide_eq_false_2 by (by intros [? _]).
    by rewrite delete_middle, bool_decide_eq_true_2.
Qed.

End store_facts.

(** * Further properties of the list query, on the reference store *)

Section query_facts.
Context `{Bson} `{!Infinite oid} `{!Regex}.
Import MemStore.

Lemma matches_iff (flt : filter_dict) (d : document) :
  matches flt d = true ↔ ∀ k c, flt !! k = Some c → cond_holds c (d !! k) = true.
Proof.
  unfold matches. rewrite forallb_forall. split.
  - intros Hm k c Hk. apply (Hm (k, c)), list_elem_of_In. by apply elem_of_map_to_list.
  - intros Hm [k c] Hin%list_elem_of_In. by apply Hm, elem_of_map_to_list.
Qed.

Lemma cond_ops_iff (ops : gmap string value) fv :
  cond_holds (COps ops) fv = true
  ↔ ∀ op arg, ops !! op = Some arg → op_holds ops op arg fv = true.
Proof.
  cbn. rewrite forallb_forall. split.
  - intros Hm k c Hk. apply (Hm (k, c)), list_elem_of_In. by apply elem_of_map_to_list.
  - intros Hm [k c] Hin%list_elem_of_In. by apply Hm, elem_of_map_to_list.
Qed.

Lemma op_gte_iff ops lo fv :
  op_holds ops "$gte" (VInt lo) fv = true ↔ ∃ n, fv = Some (VInt n) ∧ lo ≤ n.
Proof.
  split; [apply op_holds_gte|]. intros (n & -> & Hn).
  unfold op_holds. rewrite bool_decide_eq_true_2 by done. by apply Z.leb_le.
Qed.

Lemma op_lte_iff ops hi fv :
  op_holds ops "$lte" (VInt hi) fv = true ↔ ∃ n, fv = Some (VInt n) ∧ n ≤ hi.
Proof.
  split; [apply op_holds_lte|]. intros (n & -> & Hn).
  unfold op_holds. rewrite bool_decide_eq_false_2 by done.
  rewrite bool_decide_eq_true_2 by done. by apply Z.leb_le.
Qed.

Lemma name_cond_iff (p : pystr) fv :
  cond_holds (COps {[ "$regex" := VStr p; "$options" := VStr (codes "i") ]}) fv = true
  ↔ ∃ s, fv = Some (VStr s) ∧ regex_search p (codes "i") s = true.
Proof.
  rewrite cond_ops_iff.
  assert (({[ "$regex" := VStr p; "$options" := VStr (codes "i") ]}
            : gmap string value) !! "$options" = Some (VStr (codes "i"))) as Ho.
  { rewrite lookup_insert_ne by done. apply lookup_singleton_eq. }
  split.
  - intros Hm. specialize (Hm "$regex"%string (VStr p) (lookup_insert_eq _ _ _)).
    unfold op_holds in Hm. rewrite !bool_decide_eq_false_2 in Hm by done.
    rewrite bool_decide_eq_true_2, Ho in Hm by done.
    destruct fv as [[| | |s|]|]; try done. eauto.
  - intros (s & -> & Hs) op arg Hop.
    apply lookup_insert_Some in Hop as [[<- <-]|[_ Hop]].
    + unfold op_holds. rewrite !bool_decide_eq_false_2 by done.
      by rewrite bool_decide_eq_true_2, Ho by done.
    + apply lookup_singleton_Some in Hop as [<- <-].
      unfold op_holds. rewrite !bool_decide_eq_false_2 by done.
      by apply bool_decide_eq_true.
Qed.

Lemma age_cond_iff (min_age max_age : option Z) fv :
  cond_holds
    (COps (match max_age with
           | Some n => <["$lte" := VInt n]>
                         (match min_age with
                          | Some n => <["$gte" := VInt n]> ∅
                          | None => ∅
                          end)
           | None => match min_age with
                     | Some n => <["$gte" := VInt n]> ∅
                     | None => ∅
                     end
           end)) fv = true
  ↔ match min_age with
    | Some lo => ∃ n, fv = Some (VInt n) ∧ lo ≤ n
    | None => True
    end
    ∧ match max_age with
      | Some hi => ∃ n, fv = Some (VInt n) ∧ n ≤ hi
      | None => True
      end.
Proof.
  rewrite cond_ops_iff. destruct min_age as [lo|], max_age as [hi|].
  - split.
    + intros Hm. split.
      * apply op_gte_iff with (ops := <["$lte" := VInt hi]> (<["$gte" := VInt lo]> ∅)).
        apply Hm. rewrite lookup_insert_ne by done. apply lookup_insert_eq.
      * apply op_lte_iff with (ops := <["$lte" := VInt hi]> (<["$gte" := VInt lo]> ∅)).
        apply Hm, lookup_insert_eq.
    + intros [Hlo Hhi] op arg Hop.
      apply lookup_insert_Some in Hop as [[<- <-]|[_ Hop]]; [by apply op_lte_iff|].
      apply lookup_insert_Some in Hop as [[<- <-]|[_ Hop]]; [by apply op_gte_iff|].
      by rewrite lookup_empty in Hop.
  - split.
    + intros Hm. split; [|done].
      apply op_gte_iff with (ops := <["$gte" := VInt lo]> ∅).
      apply Hm, lookup_insert_eq.
    + intros [Hlo _] op arg Hop.
      apply lookup_insert_Some in Hop as [[<- <-]|[_ Hop]]; [by apply op_gte_iff|].
      by rewrite lookup_empty in Hop.
  - split.
    + intros Hm. split; [done|].
      apply op_lte_iff with (ops := <["$lte" := VInt hi]> ∅).
      apply Hm, lookup_insert_eq.
    + intros [_ Hhi] op arg Hop.
      apply lookup_insert_Some in Hop as [[<- <-]|[_ Hop]]; [by apply op_lte_iff|].
      by rewrite lookup_empty in Hop.
  - split; [done|]. intros _ op arg Hop. by rewrite lookup_empty in Hop.
Qed.

(** The keys of [filter_query], one by one: a name key exactly for a search
    text that is given and not empty; an age key exactly when a bound is
    given, the bound 0 included; an [is_active] key exactly when the flag is
    given, [False] included; no other key. *)
Lemma filter_query_lookup q min_age max_age is_active (k : string) :
  filter_query q min_age max_age is_active !! k
  = if decide (k = "is_active"%string) then (CVal ∘ VBool) <$> is_active
    else if decide (k = "age"%string) then
      match min_age, max_age with
      | None, None => None
      | _, _ =>
          Some (COps (match max_age with
                      | Some n => <["$lte" := VInt n]>
                                    (match min_age with
                                     | Some n => <["$gte" := VInt n]> ∅
                                     | None => ∅
                                     end)
                      | None => match min_age with
                                | Some n => <["$gte" := VInt n]> ∅
                                | None => ∅
                                end
                      end))
      end
    else if decide (k = "name"%string) then
      match q with
      | Some (c :: q') =>
          Some (COps {[ "$regex" := VStr (c :: q'); "$options" := VStr (codes "i") ]})
      | _ => None
      end
    else None.
Proof.
  unfold filter_query.
  destruct (decide (k = "is_active"%string)) as [->|Hi].
  { destruct is_active; cbn; [by rewrite lookup_insert_eq|].
    destruct min_age, max_age; cbn; rewrite ?lookup_insert_ne by done;
      destruct q as [[|? ?]|]; by rewrite ?lookup_insert_ne, ?lookup_empty by done. }
  assert (∀ m : filter_dict,
            match is_active with
            | Some b => <["is_active" := CVal (VBool b)]> m
            | None => m
            end !! k = m !! k) as ->.
  { intros m. destruct is_active; [by rewrite lookup_insert_ne|done]. }
  destruct (decide (k = "age"%string)) as [->|Ha].
  { destruct min_age, max_age; cbn; rewrite ?lookup_insert_eq; try done.
    destruct q as [[|? ?]|]; by rewrite ?lookup_insert_ne, ?lookup_empty by done. }
  assert (∀ m : filter_dict,
            (if bool_decide (min_age ≠ None) || bool_decide (max_age ≠ None)
             then <["age" := COps
                      (match max_age with
                       | Some n => <["$lte" := VInt n]>
                                     (match min_age with
                                      | Some n => <["$gte" := VInt n]> ∅
                                      | None => ∅
                                      end)
                       | None => match min_age with
                                 | Some n => <["$gte" := VInt n]> ∅
                                 | None => ∅
                                 end
                       end)]> m
             else m) !! k = m !! k) as Hage.
  { intros m. case_match; [by rewrite lookup_insert_ne|done]. }
  rewrite Hage.
  destruct (decide (k = "name"%string)) as [->|Hn].
  { destruct q as [[|? ?]|]; by rewrite ?lookup_insert_eq, ?lookup_empty. }
  destruct q as [[|? ?]|]; by rewrite ?lookup_insert_ne, ?lookup_empty by done.
Qed.

(** The records that [get_users] selects are exactly the records of the
    store that satisfy every criterion that was given: the name matches the
    search text without regard to case, the age is at least [min_age], at
    most [max_age], and [is_active] has the value asked for. A search text
    that is empty or left out, a bound left out and a flag left out select
    everything; the bound 0 and the flag [False] do filter. *)
Theorem selection_exact q min_age max_age is_active (st : store) (d : document) :
  d ∈ selected (filter_query q min_age max_age is_active) st
  ↔ d ∈ view <$> st
    ∧ match q with
      | Some (c :: q') =>
          ∃ s, d !! "name" = Some (VStr s) ∧ regex_search (c :: q') (codes "i") s = true
      | _ => True
      end
    ∧ match min_age with
      | Some lo => ∃ n, d !! "age" = Some (VInt n) ∧ lo ≤ n
      | None => True
      end
    ∧ match max_age with
      | Some hi => ∃ n, d !! "age" = Some (VInt n) ∧ n ≤ hi
      | None => True
      end
    ∧ match is_active with
      | Some b => d !! "is_active" = Some (VBool b)
      | None => True
      end.
Proof.
  unfold selected. rewrite list_elem_of_filter. unfold selects.
  rewrite matches_iff.
  split.
  - intros [Hm Hd]. split; [done|].
    pose proof (Hm "name"%string) as Hname.
    pose proof (Hm "age"%string) as Hage.
    pose proof (Hm "is_active"%string) as Hact.
    rewrite filter_query_lookup in Hname, Hage, Hact.
    rewrite decide_False, decide_False, decide_True in Hname by done.
    rewrite decide_False, decide_True in Hage by done.
    rewrite decide_True in Hact by done.
    assert (match min_age with
            | Some lo => ∃ n, d !! "age" = Some (VInt n) ∧ lo ≤ n
            | None => True
            end
            ∧ match max_age with
              | Some hi => ∃ n, d !! "age" = Some (VInt n) ∧ n ≤ hi
              | None => True
              end) as [Hlo Hhi].
    { destruct min_age as [lo|], max_age as [hi|]; [| | |done];
        specialize (Hage _ eq_refl).
      - by apply (age_cond_iff (Some lo) (Some hi)) in Hage.
      - by apply (age_cond_iff (Some lo) None) in Hage.
      - by apply (age_cond_iff None (Some hi)) in Hage. }
    split; [|split; [done|split; [done|]]].
    + destruct q as [[|c q']|]; try done. by apply name_cond_iff, Hname.
    + destruct is_active as [b|]; [|done].
      specialize (Hact _ eq_refl). cbn in Hact.
      by apply bool_decide_eq_true in Hact.
  - intros (Hd & Hname & Hlo & Hhi & Hact). split; [|done].
    intros k c. rewrite filter_query_lookup.
    destruct (decide (k = "is_active"%string)) as [->|Hi].
    { destruct is_active as [b|]; [|done]. intros [= <-]. cbn.
      by apply bool_decide_eq_true. }
    destruct (decide (k = "age"%string)) as [->|Ha].
    { destruct min_age as [lo|], max_age as [hi|]; [| | |done]; intros [= <-].
      - by apply (age_cond_iff (Some lo) (Some hi)).
      - by apply (age_cond_iff (Some lo) None).
      - by apply (age_cond_iff None (Some hi)). }
    destruct (decide (k = "name"%string)) as [->|Hn]; [|done].
    destruct q as [[|c' q']|]; try done. intros [= <-]. by apply name_cond_iff.
Qed.

End query_facts.

(** * Further properties of the pages, on the reference store *)

Section paging_facts.
Context `{Bson} `{!Infinite oid} `{!Regex}.
Import MemStore.

(** One page of [get_users]: the number of records on it is the limit, or
    what is left of the selection after the pages before it when that is
    less (none at all past the end, which is a success with an empty list);
    every record on it is the resource of a selected record; the page is in
    ascending order of the name; the store is as before. *)
Theorem page_contents q min_age max_age is_active page limit (st : store) :
  1 ≤ page → 1 ≤ limit ≤ 100 →
  ∃ rs,
    get_users q min_age max_age is_active page limit st = (st, Return rs)
    ∧ length rs
      = Nat.min (Z.to_nat limit)
          (length (selected (filter_query q min_age max_age is_active) st)
           - Z.to_nat ((page - 1) * limit))
    ∧ (∀ r, r ∈ rs →
         ∃ d, d ∈ selected (filter_query q min_age max_age is_active) st
              ∧ r = Some (to_resource d))
    ∧ StronglySorted by_name rs.
Proof.
  intros Hp Hl. eexists. split; [apply get_users_mem|]. split; [|split].
  - rewrite length_fmap, length_take, length_drop.
    unfold skip_of. by rewrite sort_docs_perm.
  - intros r (d & -> & Hd)%list_elem_of_fmap.
    exists d. split; [|done]. by eapply sorted_page_selected.
  - apply (StronglySorted_fmap _ (doc_le "name")).
    + intros x y Hxy. unfold by_name. cbn. by rewrite !to_resource_field.
    + apply StronglySorted_take, StronglySorted_drop, sort_docs_sorted.
Qed.

(** Pages compose: pages [2k - 1] and [2k] of size [n], one after the other,
    are page [k] of size [2n]. *)
Theorem pages_compose q min_age max_age is_active (k n : Z) (st : store) :
  1 ≤ k → 1 ≤ n ≤ 50 →
  ∃ a b,
    get_users q min_age max_age is_active (2 * k - 1) n st = (st, Return a)
    ∧ get_users q min_age max_age is_active (2 * k) n st = (st, Return b)
    ∧ get_users q min_age max_age is_active k (2 * n) st = (st, Return (a ++ b)).
Proof.
  intros Hk Hn. eexists _, _.
  split; [apply get_users_mem|]. split; [apply get_users_mem|].
  rewrite get_users_mem. do 2 f_equal.
  rewrite <-fmap_app. f_equal. unfold skip_of.
  set (L := sort_docs "name" 1
              (selected (filter_query q min_age max_age is_active) st)).
  replace (Z.to_nat (2 * n)) with (Z.to_nat n + Z.to_nat n)%nat by lia.
  replace (Z.to_nat ((2 * k - 1) * n))
    with (Z.to_nat ((2 * k - 1 - 1) * n) + Z.to_nat n)%nat by nia.
  replace (Z.to_nat ((k - 1) * (2 * n)))
    with (Z.to_nat ((2 * k - 1 - 1) * n)) by (f_equal; lia).
  rewrite <-drop_drop. by rewrite take_take_drop.
Qed.

(** No record is lost by the pages: every selected record is on some page,
    whatever the size of the pages. *)
Theorem pages_cover q min_age max_age is_active limit (st : store) (d : document) :
  1 ≤ limit ≤ 100 →
  d ∈ selected (filter_query q min_age max_age is_active) st →
  ∃ page rs,
    1 ≤ page
    ∧ get_users q min_age max_age is_active page limit st = (st, Return rs)
    ∧ Some (to_resource d) ∈ rs.
Proof.
  intros Hl Hd.
  set (L := sort_docs "name" 1
              (selected (filter_query q min_age max_age is_active) st)).
  assert (d ∈ L) as Hin by (unfold L; by rewrite sort_docs_perm).
  apply list_elem_of_lookup_1 in Hin as [i Hi].
  set (N := Z.to_nat limit).
  assert (N ≠ 0)%nat as HN by (unfold N; lia).
  exists (Z.of_nat (i `div` N) + 1), ((Some ∘ to_resource) <$>
    take N (drop (Z.to_nat (skip_of (Z.of_nat (i `div` N) + 1) limit)) L)).
  split; [lia|]. split; [apply get_users_mem|].
  apply (list_elem_of_fmap_2 (Some ∘ to_resource)).
  apply (list_elem_of_lookup_2 _ (i `mod` N)).
  rewrite lookup_take_lt by (by apply Nat.mod_upper_bound).
  rewrite lookup_drop. rewrite <-Hi. f_equal.
  unfold skip_of.
  replace (Z.to_nat ((Z.of_nat (i `div` N) + 1 - 1) * limit))
    with (i `div` N * N)%nat by (unfold N; nia).
  rewrite Nat.mul_comm. symmetry. by apply Nat.div_mod.
Qed.

End paging_facts.

(** * Round trip and invariants, on the reference store *)

Section lifecycle_facts.
Context `{Bson} `{!Infinite oid} `{!Regex}.
Import MemStore.

Lemma create_user_free (user : UserCreate.t) (st : store) :
  VStr (UserCreate.email user) ∉ (email_key ∘ snd) <$> st →
  create_user user st
  = (st ++ [(fresh (st.*1), UserCreate.model_dump user)],
     Return (Some (resource (fresh (st.*1), UserCreate.model_dump user)))).
Proof.
  intros Hfree. unfold create_user. apply try_return.
  rewrite (bind_return _ _ _ _ _ (mem_insert_one_free user st Hfree)).
  rewrite (bind_return _ _ _ _ _
    (mem_find_one_appended (fresh (st.*1)) _ st (infinite_is_fresh _))).
  apply user_to_dict_view.
Qed.

Lemma create_user_taken (user : UserCreate.t) (st : store) :
  VStr (UserCreate.email user) ∈ (email_key ∘ snd) <$> st →
  create_user user st
  = (st, Raise (HTTPException 409 (codes "User with this email already exists"))).
Proof.
  intros Htaken. unfold create_user.
  erewrite (try_raise _ _ st st DuplicateKeyError).
  - apply translate_failure_duplicate, duplicate_key_is_recognised.
  - by apply bind_raise, mem_insert_one_taken.
Qed.

(** Create, then read back. When the text of the new identifier is a valid
    identifier that reads back as the same identifier, a [get_user] under
    the ["id"] of the resource that [create_user] returned gives that same
    resource, field for field. *)
Theorem create_then_get (user : UserCreate.t) (st : store) :
  VStr (UserCreate.email user) ∉ (email_key ∘ snd) <$> st →
  ObjectId_is_valid (oid_str (fresh (st.*1))) = true →
  ObjectId_new (oid_str (fresh (st.*1))) = fresh (st.*1) →
  ∃ st1 r ident,
    create_user user st = (st1, Return (Some r))
    ∧ r !! "id" = Some (VStr ident)
    ∧ get_user ident st1 = (st1, Return (Some r)).
Proof.
  intros Hfree Hv Hback.
  exists (st ++ [(fresh (st.*1), UserCreate.model_dump user)]),
    (resource (fresh (st.*1), UserCreate.model_dump user)),
    (oid_str (fresh (st.*1))).
  split; [by apply create_user_free|]. split; [apply resource_id|].
  pose proof (get_user_first (oid_str (fresh (st.*1)))
                (UserCreate.model_dump user) st [] Hv) as Hg.
  rewrite Hback in Hg. apply Hg, infinite_is_fresh.
Qed.

Lemma user_to_dict_state {S} `{!Collection S} (user : option document) (s : S) :
  (user_to_dict user s).1 = s.
Proof.
  unfold user_to_dict. destruct (truthy user); [|done].
  destruct user as [d|]; [|done]. by destruct (d !! "_id").
Qed.

Lemma get_user_by_id_state user_id (st : store) :
  (get_user_by_id user_id st).1 = st.
Proof.
  unfold get_user_by_id, try_except.
  by destruct (ObjectId_is_valid user_id).
Qed.

Lemma translate_failure_state {S} `{!Collection S} {A} (e : exn) (s : S) :
  (translate_failure (A:=A) e s).1 = s.
Proof.
  unfold translate_failure.
  by destruct (contains (codes "duplicate key error") (lower (exn_str e))).
Qed.

Lemma NoDup_insert_other {A} (l : list A) (i : nat) (x : A) :
  NoDup l → x ∉ delete i l → NoDup (<[i := x]> l).
Proof.
  intros Hl Hx. destruct (l !! i) as [y|] eqn:Hi.
  - rewrite insert_take_drop by (by eapply lookup_lt_Some).
    rewrite delete_take_drop in Hx.
    rewrite <-(take_drop_middle l i y Hi) in Hl.
    apply NoDup_app in Hl as (H1 & H2 & H3). apply NoDup_cons in H3 as [H3 H4].
    rewrite elem_of_app in Hx.
    apply NoDup_app. split; [done|]. split.
    + intros z Hz [->|Hz']%elem_of_cons; [tauto|].
      apply (H2 z Hz). by right.
    + apply NoDup_cons. split; [tauto|done].
  - rewrite list_insert_ge; [done|]. by apply lookup_ge_None.
Qed.

(** The state that [mem_update_one] leaves keeps identifiers and emails
    pairwise distinct. *)
Lemma mem_update_one_distinct flt upd (st : store) :
  NoDup (st.*1) → NoDup ((email_key ∘ snd) <$> st) →
  NoDup ((mem_update_one flt upd st).1.*1)
  ∧ NoDup ((email_key ∘ snd) <$> (mem_update_one flt upd st).1).
Proof.
  intros Hid Hem. unfold mem_update_one.
  destruct (list_find (λ e, selects flt (view e)) st) as [[i e]|] eqn:Hf; [|done].
  case_bool_decide; [done|]. case_bool_decide as Hfree; [done|].
  cbn [fst]. apply list_find_Some in Hf as (Hi & _ & _). split.
  - rewrite list_fmap_insert. cbn [fst].
    rewrite list_insert_id; [done|]. by rewrite list_lookup_fmap, Hi.
  - rewrite list_fmap_insert. apply NoDup_insert_other; [done|].
    by rewrite <-list_fmap_delete.
Qed.

Lemma mem_delete_one_distinct flt (st : store) :
  NoDup (st.*1) → NoDup ((email_key ∘ snd) <$> st) →
  NoDup ((mem_delete_one flt st).1.*1)
  ∧ NoDup ((email_key ∘ snd) <$> (mem_delete_one flt st).1).
Proof.
  intros Hid Hem. unfold mem_delete_one.
  destruct (list_find (λ e, selects flt (view e)) st) as [[i e]|]; [|done].
  cbn [fst]. rewrite !list_fmap_delete.
  split; eapply sublist_NoDup; try apply sublist_delete; done.
Qed.

(** The five operations keep the store sound: when the identifiers of the
    records are pairwise distinct and so are their emails, they still are
    after [create_user], [update_user] and [delete_user], whatever the
    arguments and whether the operation succeeds or not; [get_user] and
    [get_users] leave the store as it is. *)
Theorem operations_keep_distinct (st : store) user user_id user_update
    q min_age max_age is_active page limit :
  NoDup (st.*1) → NoDup ((email_key ∘ snd) <$> st) →
  (NoDup ((create_user user st).1.*1)
   ∧ NoDup ((email_key ∘ snd) <$> (create_user user st).1))
  ∧ (NoDup ((update_user user_id user_update st).1.*1)
     ∧ NoDup ((email_key ∘ snd) <$> (update_user user_id user_update st).1))
  ∧ (NoDup ((delete_user user_id st).1.*1)
     ∧ NoDup ((email_key ∘ snd) <$> (delete_user user_id st).1))
  ∧ (get_user user_id st).1 = st
  ∧ (get_users q min_age max_age is_active page limit st).1 = st.
Proof.
  intros Hid Hem. split; [|split; [|split; [|split]]].
  - destruct (decide (VStr (UserCreate.email user) ∈ (email_key ∘ snd) <$> st))
      as [Ht|Hf].
    + by rewrite create_user_taken.
    + rewrite create_user_free by done. cbn [fst].
      rewrite !fmap_app. cbn. split.
      * apply NoDup_app. split; [done|]. split; [|apply NoDup_singleton].
        intros o Ho ->%list_elem_of_singleton. by apply (infinite_is_fresh (st.*1)).
      * apply NoDup_app. split; [done|]. split; [|apply NoDup_singleton].
        intros v Hv ->%list_elem_of_singleton. apply Hf.
        by rewrite model_dump_email in Hv.
  - unfold update_user. destruct (ObjectId_is_valid user_id); cbn [negb]; [|done].
    case_bool_decide; [done|].
    assert ((apply_update user_id (update_data user_update) st).1
            = (mem_update_one (by_id user_id)
                 {[ "$set" := update_data user_update ]} st).1) as ->.
    { unfold apply_update, try_except, mbind, M_bind, bind. cbn [update_one collection].
      destruct (mem_update_one (by_id user_id)
                  {[ "$set" := update_data user_update ]} st) as [st' [n|e]].
      - destruct (n =? 0).
        + cbn. apply translate_failure_state.
        + pose proof (get_user_by_id_state user_id st') as Hg.
          destruct (get_user_by_id user_id st') as [st'' [r|e]]; cbn in Hg; subst st''.
          * pose proof (user_to_dict_state r st') as Hu.
            destruct (user_to_dict r st') as [st'' [r'|e]]; cbn in Hu; subst st'';
              [done|apply translate_failure_state].
          * apply translate_failure_state.
      - apply translate_failure_state. }
    by apply mem_update_one_distinct.
  - unfold delete_user. destruct (ObjectId_is_valid user_id); cbn [negb]; [|done].
    assert (((deleted_count ← delete_one (by_id user_id);
              if deleted_count =? 0
              then raise (HTTPException 404 (codes "User not found"))
              else mret ()) st).1
            = (mem_delete_one (by_id user_id) st).1) as ->.
    { unfold mbind, M_bind, bind. cbn [delete_one collection].
      destruct (mem_delete_one (by_id user_id) st) as [st' [n|e]]; [|done].
      by destruct (n =? 0). }
    by apply mem_delete_one_distinct.
  - unfold get_user. destruct (ObjectId_is_valid user_id); cbn [negb]; [|done].
    unfold mbind, M_bind, bind.
    pose proof (get_user_by_id_state user_id st) as Hg.
    destruct (get_user_by_id user_id st) as [st' [r|e]]; cbn in Hg; subst st'; [|done].
    destruct (truthy r); cbn [negb]; [|done]. apply user_to_dict_state.
  - by rewrite get_users_mem.
Qed.

End lifecycle_facts.

(** * The translation of a failed write *)

Section failure_facts.
Context `{Bson} {S : Type} `{!Collection S}.




End failure_facts.

(** * Create and read back, with numbered identifiers *)

Module NumberedRuns.
Import Numbered.

Lemma create_then_get_witness :
  ∃ st1 r ident,
    create_user Sample.ada two_users = (st1, Return (Some r))
    ∧ r !! "id" = Some (VStr ident)
    ∧ get_user ident st1 = (st1, Return (Some r)).
Proof.
  apply (create_then_get Sample.ada two_users).
  - apply (bool_decide_unpack _). vm_compute. exact I.
  - vm_compute. reflexivity.
  - vm_compute. reflexivity.
Defined.

End NumberedRuns.

(** * The statements on sample data *)

Import Sample.

Lemma update_unmatched_answers_500_witness :
  ObjectId_is_valid id0 = true
  ∧ (ObjectId_new id0 ∉ two_users.*1)
  ∧ update_user id0 (only_age 5) two_users
    = (two_users, Raise (HTTPException 500 (codes "Internal server error"))).
Proof.
  assert (ObjectId_is_valid id0 = true) as Hv by (by vm_compute).
  assert (ObjectId_new id0 ∉ two_users.*1) as Hn
    by (apply (bool_decide_unpack _); by vm_compute).
  split; [exact Hv|]. split; [exact Hn|].
  apply (update_unmatched_answers_500 id0 (only_age 5) two_users two_users Hv).
  - apply (bool_decide_unpack _). by vm_compute.
  - by apply mem_update_one_unmatched.
Defined.

Lemma get_user_failure_answers_404_witness :
  find_one (by_id id1) 0%nat = (1%nat, Raise Unreachable.failure)
  ∧ get_user id1 0%nat
    = (1%nat, Raise (HTTPException 404 (codes "User not found"))).
Proof.
  split; [reflexivity|].
  apply (get_user_failure_answers_404 id1 0%nat 1%nat Unreachable.failure);
    [by vm_compute|reflexivity].
Defined.

Lemma same_email_twice_witness :
  ∃ st1 r,
    create_user ada two_users = (st1, Return (Some r))
    ∧ r !! "email" = Some (VStr (codes "ada@x.org"))
    ∧ create_user eve st1
      = (st1, Raise (HTTPException 409 (codes "User with this email already exists"))).
Proof.
  apply (same_email_twice two_users ada eve); [reflexivity|].
  apply (bool_decide_unpack _). by vm_compute.
Defined.

Lemma empty_update_rejected_witness :
  ∃ user_update,
    UserUpdate.validate empty_body = inr user_update
    ∧ update_data user_update = ∅
    ∧ ∀ user_id (s : MemStore.store), ObjectId_is_valid user_id = true →
        update_user user_id user_update s
        = (s, Raise (HTTPException 400 (codes "No data provided for update"))).
Proof. apply (empty_update_rejected empty_body). reflexivity. Defined.

Lemma second_page_of_fifteen_witness :
  ∃ page1 page2,
    get_users None (Some 18) None (Some true) 1 10 seventeen_users
      = (seventeen_users, Return page1)
    ∧ get_users None (Some 18) None (Some true) 2 10 seventeen_users
      = (seventeen_users, Return page2)
    ∧ length page1 = 10%nat
    ∧ length page2 = 5%nat
    ∧ ∀ r, r ∈ page1 → r ∉ page2.
Proof.
  apply (proj2 (second_page_of_fifteen None (Some 18) None (Some true) seventeen_users)).
  - intros x y E. exact E.
  - apply (bool_decide_unpack _). by vm_compute.
  - by vm_compute.
Defined.

Lemma malformed_identifier_rejected_witness :
  ObjectId_is_valid (codes "not-an-id") = false
  ∧ get_user (codes "not-an-id") 0%nat
    = (0%nat, Raise (HTTPException 400 (codes "Invalid user ID")))
  ∧ update_user (codes "not-an-id") (only_age 5) 0%nat
    = (0%nat, Raise (HTTPException 400 (codes "Invalid user ID")))
  ∧ delete_user (codes "not-an-id") 0%nat
    = (0%nat, Raise (HTTPException 400 (codes "Invalid user ID"))).
Proof.
  assert (ObjectId_is_valid (codes "not-an-id") = false) as Hv by (by vm_compute).
  split; [exact Hv|].
  exact (malformed_identifier_rejected (codes "not-an-id") (only_age 5) 0%nat Hv).
Defined.

Lemma falsy_values_kept_witness :
  ObjectId_is_valid id1 = true
  ∧ update_user id1 (only_is_active false) two_users
    = ([ (id1, <["is_active" := VBool false]> (doc "Bob" "bob@x.org" 30 true));
         (id2, doc "Ana" "ana@x.org" 17 true) ],
       Return (Some (MemStore.resource
         (id1, <["is_active" := VBool false]> (doc "Bob" "bob@x.org" 30 true))))).
Proof.
  assert (ObjectId_is_valid id1 = true) as Hv by (by vm_compute).
  split; [exact Hv|].
  refine (proj1 (proj2 (proj2 (proj2 (proj2 (proj2 falsy_values_kept))))
    id1 (doc "Bob" "bob@x.org" 30 true) [] [(id2, doc "Ana" "ana@x.org" 17 true)]
    Hv _ _)).
  - apply not_elem_of_nil.
  - apply (bool_decide_unpack _). by vm_compute.
Defined.

(** ** Sample runs *)

(** Deleting a record twice: the first delete succeeds, the second one
    answers 404. *)
Example delete_twice :
  delete_user id1 two_users = (only_ana, Return ())
  ∧ delete_user id1 only_ana
    = (only_ana, Raise (HTTPException 404 (codes "User not found"))).
Proof. split; vm_compute; reflexivity. Qed.

(** [validateUpdate({age: -1})] is refused on [age]. *)
Example negative_age_refused :
  UserUpdate.validate
    {| p_name := Unset; p_email := Unset; p_age := Given (-1); p_is_active := Unset |}
  = inl ["age"%string].
Proof. reflexivity. Qed.

(** Both signs inside the accented range pass the pattern; a digit, and a
    letter beyond U+00FF, do not. *)
Example pattern_samples :
  re_match_name [65; 215] = true ∧ re_match_name [65; 247] = true
  ∧ re_match_name (codes "A1") = false ∧ re_match_name [321; 97] = false
  ∧ re_match_name [65; 9; 66] = true.
Proof. by vm_compute. Qed.

(** ** Further sample runs *)

Import MoreSamples.

Lemma create_model_sound_witness :
  UserCreate.validate ada_body = inr ada
  ∧ p_name ada_body = Given (UserCreate.name ada)
  ∧ 2 ≤ len (UserCreate.name ada) ≤ 80
  ∧ 0 ≤ UserCreate.age ada.
Proof.
  assert (UserCreate.validate ada_body = inr ada) as Hv by reflexivity.
  split; [exact Hv|].
  destruct (create_model_sound ada_body ada Hv) as (Hn & Hl & _ & _ & _ & Ha & _).
  split; [exact Hn|]. split; [exact Hl|exact Ha].
Defined.

Lemma update_model_sound_witness :
  UserUpdate.validate age_body = inr age_update
  ∧ UserUpdate.age age_update = p_age age_body
  ∧ ∀ n, UserUpdate.age age_update = Given n → 0 ≤ n.
Proof.
  assert (UserUpdate.validate age_body = inr age_update) as Hv by reflexivity.
  split; [exact Hv|].
  destruct (update_model_sound age_body age_update Hv)
    as (_ & Ha & _ & _ & _ & _ & _ & Hn).
  split; [exact Ha|exact Hn].
Defined.

Lemma update_user_400_iff_witness :
  ObjectId_is_valid id1 = true
  ∧ update_user id1 nothing_sent 0%nat
    = (0%nat, Raise (HTTPException 400 (codes "No data provided for update"))).
Proof.
  assert (ObjectId_is_valid id1 = true) as Hv by (vm_compute; reflexivity).
  split; [exact Hv|].
  apply (proj2 (update_user_400_iff id1 nothing_sent 0%nat Hv)).
  apply (proj2 (update_data_exact nothing_sent)). reflexivity.
Defined.

Lemma get_user_on_store_witness :
  get_user id1 two_users = (two_users, Return (Some bob_resource))
  ∧ get_user id0 two_users
    = (two_users, Raise (HTTPException 404 (codes "User not found"))).
Proof.
  split.
  - refine (proj1 (get_user_on_store id1 _) bob [] only_ana _).
    + vm_compute. reflexivity.
    + apply not_elem_of_nil.
  - refine (proj2 (get_user_on_store id0 _) two_users _).
    + vm_compute. reflexivity.
    + apply (bool_decide_unpack _). vm_compute. exact I.
Defined.

Lemma delete_user_on_store_witness :
  delete_user id1 two_users = (only_ana, Return ())
  ∧ delete_user id1 only_ana
    = (only_ana, Raise (HTTPException 404 (codes "User not found")))
  ∧ get_user id1 only_ana
    = (only_ana, Raise (HTTPException 404 (codes "User not found"))).
Proof.
  refine (delete_user_on_store id1 bob [] only_ana _ _ _).
  - vm_compute. reflexivity.
  - apply not_elem_of_nil.
  - apply (bool_decide_unpack _). vm_compute. exact I.
Defined.

Lemma update_then_get_witness :
  ∃ r,
    update_user id1 age_update two_users
    = ((id1, update_data age_update ∪ bob) :: only_ana, Return (Some r))
    ∧ get_user id1 ((id1, update_data age_update ∪ bob) :: only_ana)
      = ((id1, update_data age_update ∪ bob) :: only_ana, Return (Some r))
    ∧ r !! "age" = Some (VInt 31)
    ∧ r !! "name" = Some (VStr (codes "Bob")).
Proof.
  assert (ObjectId_is_valid id1 = true) as Hv by (vm_compute; reflexivity).
  destruct (update_then_get id1 age_update bob [] only_ana Hv)
    as (r & Hu & Hg & _ & Hset & Hkeep).
  - apply not_elem_of_nil.
  - apply (bool_decide_unpack _). vm_compute. exact I.
  - apply (bool_decide_unpack _). vm_compute. exact I.
  - exists r. split; [exact Hu|]. split; [exact Hg|]. split.
    + apply Hset. vm_compute. reflexivity.
    + rewrite Hkeep; [vm_compute; reflexivity|done|done|vm_compute; reflexivity].
Defined.

Lemma update_user_conflict_witness :
  update_user id1 email_update two_users
  = (two_users, Raise (HTTPException 409 (codes "User with this email already exists"))).
Proof.
  refine (update_user_conflict id1 email_update bob [] only_ana _ _ _ _).
  - vm_compute. reflexivity.
  - apply not_elem_of_nil.
  - apply (bool_decide_unpack _). vm_compute. exact I.
  - apply (bool_decide_unpack _). vm_compute. exact I.
Defined.

Lemma page_contents_witness :
  ∃ rs,
    get_users None (Some 18) None (Some true) 2 10 seventeen_users
    = (seventeen_users, Return rs)
    ∧ length rs = 5%nat.
Proof.
  destruct (page_contents None (Some 18) None (Some true) 2 10 seventeen_users)
    as (rs & Hg & Hlen & _); [lia|lia|].
  exists rs. split; [exact Hg|]. rewrite Hlen. vm_compute. reflexivity.
Defined.

Lemma pages_compose_witness :
  ∃ a b,
    get_users None (Some 18) None None 3 4 seventeen_users = (seventeen_users, Return a)
    ∧ get_users None (Some 18) None None 4 4 seventeen_users
      = (seventeen_users, Return b)
    ∧ get_users None (Some 18) None None 2 8 seventeen_users
      = (seventeen_users, Return (a ++ b)).
Proof.
  apply (pages_compose None (Some 18) None None 2 4 seventeen_users); lia.
Defined.

Lemma pages_cover_witness :
  ∃ page rs,
    1 ≤ page
    ∧ get_users None None None None page 3 two_users = (two_users, Return rs)
    ∧ Some bob_resource ∈ rs.
Proof.
  apply (pages_cover None None None None 3 two_users bob_view);
    [lia|].
  apply (bool_decide_unpack _). vm_compute. exact I.
Defined.

Lemma operations_keep_distinct_witness :
  NoDup ((create_user ada two_users).1.*1)
  ∧ NoDup ((MemStore.email_key ∘ snd) <$> (update_user id1 email_update two_users).1)
  ∧ (get_user id1 two_users).1 = two_users.
Proof.
  assert (NoDup (two_users.*1)) as Hid
    by (apply (bool_decide_unpack _); vm_compute; exact I).
  assert (NoDup ((MemStore.email_key ∘ snd) <$> two_users)) as Hem
    by (apply (bool_decide_unpack _); vm_compute; exact I).
  destruct (operations_keep_distinct two_users ada id1 email_update
              None None None None 1 10 Hid Hem)
    as ((Hc & _) & (_ & Hu) & _ & Hg & _).
  split; [exact Hc|]. split; [exact Hu|exact Hg].
Defined.


Lemma create_user_on_store_witness :
  create_user eve three_users
  = (three_users,
     Raise (HTTPException 409 (codes "User with this email already exists"))).
Proof.
  apply (proj2 (create_user_on_store (H:=hex_bson) eve three_users)).
  apply (bool_decide_unpack _). vm_compute. exact I.
Defined.

Lemma user_to_dict_shape_witness :
  ∃ r, user_to_dict (Some bob_view) 0%nat = (0%nat, Return (Some r))
       ∧ r !! "_id" = None
       ∧ r !! "id" = Some (VStr id1).
Proof.
  destruct (proj1 (user_to_dict_shape bob_view 0%nat)
              (VOid (H:=hex_bson) id1) (lookup_insert_eq _ _ _))
    as (r & Hr & H1 & H2 & _).
  exists r. split; [exact Hr|]. split; [exact H1|exact H2].
Defined.
